(** * tv2go, package naming: the release-name parser

    A shallow embedding of the name parser of tv2go ([parseString], [Parse],
    [ParseFile], [combineResults], [isEmptyValue], [CleanSeriesName],
    [SanitizeSceneName]) together with the parts of the Go standard library
    the parser calls ([strings], [strconv], [path/filepath]); further the
    media-file classifier ([IsMediaExtension], [IsMediaFile]),
    [FirstEpisode], [FullSanitizeSceneName], and of package providers the
    provider types and [ProviderRegistry.Search].

    Conventions.
    - A Go [string] is a Rocq [string]: a sequence of bytes.
    - [int64] and [int] values are in [Z].  [strconv.ParseInt] checks the
      64-bit range itself; [Score] only ever holds [0 - i] plus at most five
      increments, with [i] a slice index, so it cannot wrap.
    - A [map[string]string] is a [gmap string string].
    - A [continue] inside the rule loop is [None] of the loop body.
    - [glog] calls only write to the log and are left out. *)

From Stdlib Require Import ZArith Ascii.
From stdpp Require Import base option list strings gmap fin_maps sorting.

Local Open Scope Z_scope.

(** ** Package [strings] *)

Module strings.

(** [strings.HasPrefix]. *)
Fixpoint HasPrefix (s prefix : string) : bool :=
  match prefix, s with
  | EmptyString, _ => true
  | String _ _, EmptyString => false
  | String a prefix', String b s' => Ascii.eqb a b && HasPrefix s' prefix'
  end.

(** Membership of a byte in a cut set or character class. *)
Fixpoint contains (c : ascii) (cutset : string) : bool :=
  match cutset with
  | EmptyString => false
  | String d cutset' => Ascii.eqb c d || contains c cutset'
  end.

(** [strings.TrimLeft]: drop the leading bytes that are in [cutset]. *)
Fixpoint TrimLeft (s cutset : string) : string :=
  match s with
  | EmptyString => EmptyString
  | String c s' => if contains c cutset then TrimLeft s' cutset else s
  end.

(** [strings.TrimRight]: drop the trailing bytes that are in [cutset]. *)
Fixpoint TrimRight (s cutset : string) : string :=
  match s with
  | EmptyString => EmptyString
  | String c s' =>
      match TrimRight s' cutset with
      | EmptyString => if contains c cutset then EmptyString else String c EmptyString
      | t => String c t
      end
  end.

(** [strings.Trim]. *)
Definition Trim (s cutset : string) : string :=
  TrimRight (TrimLeft s cutset) cutset.

(** [strings.TrimSuffix]: remove one trailing occurrence of [suffix]. *)
Fixpoint TrimSuffix (s suffix : string) : string :=
  match s with
  | EmptyString => EmptyString
  | String c s' => if String.eqb s suffix then EmptyString else String c (TrimSuffix s' suffix)
  end.

(** [strings.Replace s old new (-1)] for a non-empty [old]: every
    non-overlapping occurrence, left to right.  [skip] counts the bytes of
    an occurrence that are still to be dropped. *)
Fixpoint replaceFrom (skip : nat) (s old new : string) : string :=
  match s with
  | EmptyString => EmptyString
  | String c s' =>
      match skip with
      | S k => replaceFrom k s' old new
      | O =>
          if HasPrefix s old
          then new +:+ replaceFrom (Nat.pred (String.length old)) s' old new
          else String c (replaceFrom O s' old new)
      end
  end.

Definition Replace (s old new : string) : string := replaceFrom O s old new.

(** [strings.ToLower] on a string of ASCII bytes: the letters [A]-[Z] are
    moved to [a]-[z].  (On other bytes Go decodes runes and maps them
    through the Unicode tables; the facts about [ToLower] below are stated
    for ASCII strings.) *)
Definition isUpper (c : ascii) : bool :=
  (65 <=? nat_of_ascii c)%nat && (nat_of_ascii c <=? 90)%nat.

Definition toLowerByte (c : ascii) : ascii :=
  if isUpper c then ascii_of_nat (nat_of_ascii c + 32) else c.

Fixpoint ToLower (s : string) : string :=
  match s with
  | EmptyString => EmptyString
  | String c s' => String (toLowerByte c) (ToLower s')
  end.

(** The ASCII white space: tab, line feed, vertical tab, form feed,
    carriage return and space. *)
Definition asciiSpace : string :=
  String (ascii_of_nat 9) (String (ascii_of_nat 10) (String (ascii_of_nat 11)
    (String (ascii_of_nat 12) (String (ascii_of_nat 13) " ")))).

(** [strings.TrimSpace] on a string of ASCII bytes. *)
Definition TrimSpace (s : string) : string := Trim s asciiSpace.

End strings.

(** ** Package [regexp], as far as the sanitizers use it *)

Module regexp.

(** [ReplaceAllString] for a pattern that is a character class [[...]]:
    each byte of the class is replaced by [repl]. *)
Fixpoint ReplaceAllClass (class s repl : string) : string :=
  match s with
  | EmptyString => EmptyString
  | String c s' =>
      if strings.contains c class
      then repl +:+ ReplaceAllClass class s' repl
      else String c (ReplaceAllClass class s' repl)
  end.

(** [ReplaceAllString] for the pattern [\.\.*]: each maximal run of
    periods is replaced by [repl]. *)
Fixpoint ReplaceAllDots (inRun : bool) (s repl : string) : string :=
  match s with
  | EmptyString => EmptyString
  | String c s' =>
      if Ascii.eqb c "."
      then (if inRun then ReplaceAllDots true s' repl
            else repl +:+ ReplaceAllDots true s' repl)
      else String c (ReplaceAllDots false s' repl)
  end.

End regexp.

(** ** Package [strconv] *)

Module strconv.

Inductive NumError := ErrSyntax | ErrRange.

Definition maxUint64 : Z := 2 ^ 64 - 1.

Definition digit (c : ascii) : option Z :=
  let n := Z.of_nat (nat_of_ascii c) in
  if (48 <=? n) && (n <=? 57) then Some (n - 48) else None.

(** The digit loop of [ParseUint] in base 10; the accumulator is not
    truncated, the range is checked at the end. *)
Fixpoint digits (acc : Z) (s : string) : option Z :=
  match s with
  | EmptyString => Some acc
  | String c s' =>
      match digit c with
      | Some d => digits (10 * acc + d) s'
      | None => None
      end
  end.

(** [strconv.ParseUint s 10 64]. *)
Definition ParseUint (s : string) : Z * option NumError :=
  match s with
  | EmptyString => (0, Some ErrSyntax)
  | _ =>
      match digits 0 s with
      | None => (0, Some ErrSyntax)
      | Some n => if maxUint64 <? n then (maxUint64, Some ErrRange) else (n, None)
      end
  end.

(** [strconv.ParseInt s 10 64]. *)
Definition ParseInt (s : string) : Z * option NumError :=
  match s with
  | EmptyString => (0, Some ErrSyntax)
  | String c s' =>
      let neg := Ascii.eqb c "-" in
      let s1 := if Ascii.eqb c "+" || neg then s' else s in
      let '(un, err) := ParseUint s1 in
      match err with
      | Some ErrSyntax => (0, err)
      | _ =>
          let cutoff := 2 ^ 63 in
          if negb neg && (cutoff <=? un) then (cutoff - 1, Some ErrRange)
          else if neg && (cutoff <? un) then (- cutoff, Some ErrRange)
          else (if neg then - un else un, None)
      end
  end.

End strconv.

(** ** Package [path/filepath], with [/] as the separator *)

Module filepath.

Definition IsPathSeparator (c : ascii) : bool := Ascii.eqb c "/".

Definition slice (s : string) (lo hi : nat) : string :=
  String.substring lo (hi - lo) s.

(** The backwards scan [for i >= 0 && !IsPathSeparator(path[i]) { i-- }];
    the argument is [i + 1] and so is the result. *)
Fixpoint lastSeparator (path : string) (n : nat) : nat :=
  match n with
  | O => O
  | S i =>
      match String.get i path with
      | Some c => if IsPathSeparator c then n else lastSeparator path i
      | None => O
      end
  end.

(** [filepath.Split]: [path[:i+1], path[i+1:]]. *)
Definition Split (path : string) : string * string :=
  let i1 := lastSeparator path (String.length path) in
  (slice path 0 i1, slice path i1 (String.length path)).

(** [filepath.Ext]: scan back to the last separator, return the suffix that
    starts at the first period met. *)
Fixpoint extFrom (path : string) (n : nat) : string :=
  match n with
  | O => EmptyString
  | S i =>
      match String.get i path with
      | Some c =>
          if IsPathSeparator c then EmptyString
          else if Ascii.eqb c "." then slice path i (String.length path)
          else extFrom path i
      | None => EmptyString
      end
  end.

Definition Ext (path : string) : string := extFrom path (String.length path).

(** [filepath.Base]. *)
Definition Base (path : string) : string :=
  match path with
  | EmptyString => "."
  | _ =>
      let path := strings.TrimRight path "/" in
      let i1 := lastSeparator path (String.length path) in
      let path := slice path i1 (String.length path) in
      match path with
      | EmptyString => "/"
      | _ => path
      end
  end.

End filepath.

(** ** The regular expressions of the catalog

    The patterns are compiled by the PCRE binding [go-pcre], which is not
    part of the package.  A compiled pattern is taken as what the parser
    observes of it: [MatcherString re str 0], whether it [Matches], and
    [NamedString], which fails ([None]) for a group name the pattern does not
    have. *)

Record Matcher := {
  Matches : bool;
  NamedString : string -> option string
}.

Definition Regexp := string -> Matcher.

Record TestString := {
  TestString_String : string;
  ShouldMatch : bool;
  MatchGroups : gmap string string
}.

(** [NameRegex] contains a compiled Regex and Name. *)
Record NameRegex := {
  Name : string;
  Regex : Regexp;
  TestStrings : list TestString
}.

Record NameParser := { Regexes : list NameRegex }.

Definition knownMatches : list string :=
  [ "series_name"; "season_num"; "ep_num"; "ep_ab_num"; "extra_ep_num";
    "extra_ab_ep_num"; "extra_info"; "release_group"; "air_date"; "series_num" ].

(** One turn of the loop of [regexNamedMatch] over [knownMatches]. *)
Definition addNamed (m : Matcher) (result : gmap string string) (name : string)
  : gmap string string :=
  match NamedString m name with
  | Some extract => if String.eqb extract "" then result else <[name := extract]> result
  | None => result
  end.

(** [regexNamedMatch]: the named matches in a map; [None] is [(nil, false)]. *)
Definition regexNamedMatch (re : Regexp) (str : string) : option (gmap string string) :=
  let m := re str in
  if negb (Matches m) then None
  else Some (foldl (addNamed m) ∅ knownMatches).

(** ** The sanitizers *)

Definition quote : string := String (ascii_of_nat 34) EmptyString.
Definition backslash : string := String (ascii_of_nat 92) EmptyString.

(** [CleanSeriesName] canonicalizes a series name extracted from a file name. *)
Definition CleanSeriesName (name : string) : string :=
  let name := strings.Trim name " " in
  let name := strings.Trim name "." in
  (* the class of the backslash, / and the star *)
  let name := regexp.ReplaceAllClass (backslash +:+ "/*") name "-" in
  (* the class of the colon, the double quote, <, >, | and ? *)
  let name := regexp.ReplaceAllClass (":" +:+ quote +:+ "<>|?") name "" in
  let name := strings.Replace name "--" "-" in
  name.

Definition bad_chars : list string := [ ","; ":"; "("; ")"; "!"; "?"; "'" ].

(** [SanitizeSceneName].  The value of [dotreplace.ReplaceAllString] is
    computed and dropped, as in the source: [name] is not assigned. *)
Definition SanitizeSceneName (name : string) : string :=
  let name := foldl (fun name str => strings.Replace name str "") name bad_chars in
  let name := strings.Replace name "- " "." in
  let name := strings.Replace name " " "." in
  let name := strings.Replace name "&" "and" in
  let name := strings.Replace name "/" "." in
  let _ := regexp.ReplaceAllDots false name "." in
  let name := strings.TrimSuffix name "." in
  name.

(** ** Parse results *)

Section Naming.

(** [time.Time] with its zero value and [time.Date y m d 0 0 0 0 time.UTC];
    [brimtime.TranslateYMD]; the type [quality.Quality] with its zero value
    and [quality.QualityFromName].  None of them is declared in the
    package. *)
Context {Time : Type}.
Variable zeroTime : Time.
Variable time_Date : Z -> Z -> Z -> Time.
Variable TranslateYMD : string -> list string -> Z * Z * Z.
Context {Quality : Type}.
Variable zeroQuality : Quality.
Variable QualityFromName : string -> bool -> Quality.

(** [ParseResult] represents the result of parsing a filepath with a Regex.
    The field [Quality] is [Quality_] here, the name being taken by its
    type. *)
Record ParseResult := {
  OriginalName : string;
  SeriesName : string;
  SeasonNumber : Z;
  EpisodeNumbers : list Z;
  ExtraInfo : string;
  ReleaseGroup : string;
  AirDate : Time;
  AbsoluteEpisodeNumbers : list Z;
  Score : Z;
  Quality_ : Quality;
  Version : string;
  RegexUsed : string
}.

(** [ParseResult{}]. *)
Definition emptyResult : ParseResult := {|
  OriginalName := ""; SeriesName := ""; SeasonNumber := 0; EpisodeNumbers := [];
  ExtraInfo := ""; ReleaseGroup := ""; AirDate := zeroTime;
  AbsoluteEpisodeNumbers := []; Score := 0; Quality_ := zeroQuality;
  Version := ""; RegexUsed := ""
|}.

(** Assignments to one field. *)
Definition set_SeriesName (v : string) (p : ParseResult) : ParseResult :=
  {| OriginalName := OriginalName p; SeriesName := v; SeasonNumber := SeasonNumber p;
     EpisodeNumbers := EpisodeNumbers p; ExtraInfo := ExtraInfo p;
     ReleaseGroup := ReleaseGroup p; AirDate := AirDate p;
     AbsoluteEpisodeNumbers := AbsoluteEpisodeNumbers p; Score := Score p;
     Quality_ := Quality_ p; Version := Version p; RegexUsed := RegexUsed p |}.
Definition set_SeasonNumber (v : Z) (p : ParseResult) : ParseResult :=
  {| OriginalName := OriginalName p; SeriesName := SeriesName p; SeasonNumber := v;
     EpisodeNumbers := EpisodeNumbers p; ExtraInfo := ExtraInfo p;
     ReleaseGroup := ReleaseGroup p; AirDate := AirDate p;
     AbsoluteEpisodeNumbers := AbsoluteEpisodeNumbers p; Score := Score p;
     Quality_ := Quality_ p; Version := Version p; RegexUsed := RegexUsed p |}.
Definition set_EpisodeNumbers (v : list Z) (p : ParseResult) : ParseResult :=
  {| OriginalName := OriginalName p; SeriesName := SeriesName p;
     SeasonNumber := SeasonNumber p; EpisodeNumbers := v; ExtraInfo := ExtraInfo p;
     ReleaseGroup := ReleaseGroup p; AirDate := AirDate p;
     AbsoluteEpisodeNumbers := AbsoluteEpisodeNumbers p; Score := Score p;
     Quality_ := Quality_ p; Version := Version p; RegexUsed := RegexUsed p |}.
Definition set_ExtraInfo (v : string) (p : ParseResult) : ParseResult :=
  {| OriginalName := OriginalName p; SeriesName := SeriesName p;
     SeasonNumber := SeasonNumber p; EpisodeNumbers := EpisodeNumbers p; ExtraInfo := v;
     ReleaseGroup := ReleaseGroup p; AirDate := AirDate p;
     AbsoluteEpisodeNumbers := AbsoluteEpisodeNumbers p; Score := Score p;
     Quality_ := Quality_ p; Version := Version p; RegexUsed := RegexUsed p |}.
Definition set_ReleaseGroup (v : string) (p : ParseResult) : ParseResult :=
  {| OriginalName := OriginalName p; SeriesName := SeriesName p;
     SeasonNumber := SeasonNumber p; EpisodeNumbers := EpisodeNumbers p;
     ExtraInfo := ExtraInfo p; ReleaseGroup := v; AirDate := AirDate p;
     AbsoluteEpisodeNumbers := AbsoluteEpisodeNumbers p; Score := Score p;
     Quality_ := Quality_ p; Version := Version p; RegexUsed := RegexUsed p |}.
Definition set_AirDate (v : Time) (p : ParseResult) : ParseResult :=
  {| OriginalName := OriginalName p; SeriesName := SeriesName p;
     SeasonNumber := SeasonNumber p; EpisodeNumbers := EpisodeNumbers p;
     ExtraInfo := ExtraInfo p; ReleaseGroup := ReleaseGroup p; AirDate := v;
     AbsoluteEpisodeNumbers := AbsoluteEpisodeNumbers p; Score := Score p;
     Quality_ := Quality_ p; Version := Version p; RegexUsed := RegexUsed p |}.
Definition set_AbsoluteEpisodeNumbers (v : list Z) (p : ParseResult) : ParseResult :=
  {| OriginalName := OriginalName p; SeriesName := SeriesName p;
     SeasonNumber := SeasonNumber p; EpisodeNumbers := EpisodeNumbers p;
     ExtraInfo := ExtraInfo p; ReleaseGroup := ReleaseGroup p; AirDate := AirDate p;
     AbsoluteEpisodeNumbers := v; Score := Score p;
     Quality_ := Quality_ p; Version := Version p; RegexUsed := RegexUsed p |}.
Definition set_Score (v : Z) (p : ParseResult) : ParseResult :=
  {| OriginalName := OriginalName p; SeriesName := SeriesName p;
     SeasonNumber := SeasonNumber p; EpisodeNumbers := EpisodeNumbers p;
     ExtraInfo := ExtraInfo p; ReleaseGroup := ReleaseGroup p; AirDate := AirDate p;
     AbsoluteEpisodeNumbers := AbsoluteEpisodeNumbers p; Score := v;
     Quality_ := Quality_ p; Version := Version p; RegexUsed := RegexUsed p |}.
Definition set_Quality (v : Quality) (p : ParseResult) : ParseResult :=
  {| OriginalName := OriginalName p; SeriesName := SeriesName p;
     SeasonNumber := SeasonNumber p; EpisodeNumbers := EpisodeNumbers p;
     ExtraInfo := ExtraInfo p; ReleaseGroup := ReleaseGroup p; AirDate := AirDate p;
     AbsoluteEpisodeNumbers := AbsoluteEpisodeNumbers p; Score := Score p;
     Quality_ := v; Version := Version p; RegexUsed := RegexUsed p |}.
Definition set_Version (v : string) (p : ParseResult) : ParseResult :=
  {| OriginalName := OriginalName p; SeriesName := SeriesName p;
     SeasonNumber := SeasonNumber p; EpisodeNumbers := EpisodeNumbers p;
     ExtraInfo := ExtraInfo p; ReleaseGroup := ReleaseGroup p; AirDate := AirDate p;
     AbsoluteEpisodeNumbers := AbsoluteEpisodeNumbers p; Score := Score p;
     Quality_ := Quality_ p; Version := v; RegexUsed := RegexUsed p |}.

(** [pr.Score++]. *)
Definition incr_Score (p : ParseResult) : ParseResult := set_Score (Score p + 1) p.


(** ** The single-string parser *)

(** The loop body of [parseString] works through the captures one [if]
    after the other; each is a block here, in source order.  A block that
    can leave the turn by [continue] returns an [option]. *)

Definition on_series_name (matches : gmap string string) (pr : ParseResult)
  : ParseResult :=
  match matches !! "series_name" with
  | Some m => incr_Score (set_SeriesName (CleanSeriesName m) (set_SeriesName m pr))
  | None => pr
  end.

Definition on_series_num (matches : gmap string string) (pr : ParseResult)
  : ParseResult :=
  match matches !! "series_num" with
  | Some _ => incr_Score pr
  | None => pr
  end.

Definition on_season_num (matches : gmap string string) (pr : ParseResult)
  : option ParseResult :=
  match matches !! "season_num" with
  | Some m =>
      let m := strings.TrimLeft m "0" in
      match strconv.ParseInt m with
      | (_, Some _) => None
      | (sn, None) => Some (incr_Score (set_SeasonNumber sn pr))
      end
  | None => Some pr
  end.

(** The second [TrimLeft] is applied to [m], which is trimmed already, and
    not to [extraEp]; a failed conversion of [extraEp] is logged and the
    turn goes on. *)
Definition on_ep_num (matches : gmap string string) (pr : ParseResult)
  : option ParseResult :=
  match matches !! "ep_num" with
  | Some m =>
      let m := strings.TrimLeft m "0" in
      match strconv.ParseInt m with
      | (_, Some _) => None
      | (en, None) =>
          match matches !! "extra_ep_num" with
          | Some extraEp =>
              let m := strings.TrimLeft m "0" in
              match strconv.ParseInt extraEp with
              | (_, Some _) => Some pr
              | (extraEpCvt, None) => Some (set_EpisodeNumbers [en; extraEpCvt] pr)
              end
          | None => Some (set_EpisodeNumbers [en] pr)
          end
      end
  | None => Some pr
  end.

Definition on_ep_ab_num (matches : gmap string string) (pr : ParseResult)
  : option ParseResult :=
  match matches !! "ep_ab_num" with
  | Some m =>
      match strconv.ParseInt m with
      | (_, Some _) => None
      | (en, None) => Some (set_AbsoluteEpisodeNumbers [en] pr)
      end
  | None => Some pr
  end.

Definition on_air_date (matches : gmap string string) (pr : ParseResult)
  : option ParseResult :=
  match matches !! "air_date" with
  | Some m =>
      let '(year, month, day) := TranslateYMD m [""; "D"; "MD"; "YMD"] in
      if negb (year =? 0) && negb (month =? 0)
      then Some (incr_Score (set_AirDate (time_Date year month day) pr))
      else None
  | None => Some pr
  end.

Definition on_extra_info (matches : gmap string string) (pr : ParseResult)
  : ParseResult :=
  match matches !! "extra_info" with
  | Some _ => pr
  | None => pr
  end.

Definition on_release_group (matches : gmap string string) (pr : ParseResult)
  : ParseResult :=
  match matches !! "release_group" with
  | Some m => incr_Score (set_ReleaseGroup m pr)
  | None => pr
  end.

Definition on_version (matches : gmap string string) (pr : ParseResult)
  : ParseResult :=
  match matches !! "version" with
  | Some m => set_Version m pr
  | None => pr
  end.

(** The [ParseResult] literal a matching rule starts from. *)
Definition initialResult (name : string) (i : nat) (r : NameRegex) : ParseResult :=
  {| OriginalName := name; SeriesName := ""; SeasonNumber := 0; EpisodeNumbers := [];
     ExtraInfo := ""; ReleaseGroup := ""; AirDate := zeroTime;
     AbsoluteEpisodeNumbers := []; Score := 0 - Z.of_nat i; Quality_ := zeroQuality;
     Version := ""; RegexUsed := Name r |}.

(** The body of the loop of [parseString] for the rule [r] at index [i]:
    [Some pr] when [pr] is appended to [matchResults], [None] when the rule
    does not match or the turn is left by [continue]. *)
Definition parseRule (name : string) (i : nat) (r : NameRegex) : option ParseResult :=
  matches ← regexNamedMatch (Regex r) name;
  let pr := initialResult name i r in
  let pr := on_series_name matches pr in
  let pr := on_series_num matches pr in
  pr ← on_season_num matches pr;
  pr ← on_ep_num matches pr;
  pr ← on_ep_ab_num matches pr;
  pr ← on_air_date matches pr;
  let pr := on_extra_info matches pr in
  let pr := on_release_group matches pr in
  let pr := on_version matches pr in
  Some pr.

(** The loop [for i, r := range np.Regexes] from index [i] on: the
    [matchResults] it appends, in rule order. *)
Fixpoint parseRules (name : string) (i : nat) (rs : list NameRegex) : list ParseResult :=
  match rs with
  | [] => []
  | r :: rs' =>
      match parseRule name i r with
      | Some pr => pr :: parseRules name (S i) rs'
      | None => parseRules name (S i) rs'
      end
  end.

(** [byScore.Less] on two elements, and the [Less] of [sort.Reverse]. *)
Definition byScore_Less (a b : ParseResult) : bool := Score a <? Score b.

Definition Reverse_Less (less : ParseResult -> ParseResult -> bool)
  (a b : ParseResult) : bool := less b a.

(** [sort.Sort], given the [Less] of the data.  The algorithm belongs to
    the Go library and is not stable; the facts proved below take its
    contract as hypotheses. *)
Variable sort_Sort :
  (ParseResult -> ParseResult -> bool) -> list ParseResult -> list ParseResult.

Definition error := string.

(** [parseString]: the best match and [nil], or [&ParseResult{}] and an
    error. *)
Definition parseString (np : NameParser) (name : string) : ParseResult * option error :=
  let matchResults := parseRules name 0 (Regexes np) in
  let matchResults := sort_Sort (Reverse_Less byScore_Less) matchResults in
  match matchResults with
  | best :: _ => (best, None)
  | [] => (emptyResult, Some ("Couldn't parse string " +:+ name))
  end.

(** [Parse]. *)
Definition Parse (np : NameParser) (name : string) : ParseResult :=
  let '(res, _) := parseString np name in
  let q := QualityFromName name false in
  set_Quality q res.

(** ** Path reconciliation *)

Definition stripExtension (fname : string) : string :=
  let extension := filepath.Ext fname in
  filepath.slice fname 0 (String.length fname - String.length extension).

(** A [reflect.Value] holding a field of a [ParseResult]; the constructor
    records the [Kind]. *)
Inductive Value :=
| StringValue (s : string)
| Int64Value (n : Z)
| IntValue (n : Z)
| SliceValue (l : list Z)
| StructValue (t : Time)
| QualityValue (q : Quality).

(** What [isEmptyValue] answers on a [quality.Quality], whose kind is
    declared outside the package. *)
Variable isEmptyQuality : Quality -> bool.

(** [isEmptyValue], from src/pkg/encoding/json: no case for
    [reflect.Struct], which falls to the final [return false]. *)
Definition isEmptyValue (v : Value) : bool :=
  match v with
  | SliceValue l => Nat.eqb (length l) 0
  | StringValue s => Nat.eqb (String.length s) 0
  | Int64Value n | IntValue n => n =? 0
  | StructValue _ => false
  | QualityValue q => isEmptyQuality q
  end.

(** [reflect.Indirect(reflect.ValueOf(p)).FieldByName(field)]; [None] is
    the invalid [Value]. *)
Definition FieldByName (p : ParseResult) (field : string) : option Value :=
  if String.eqb field "OriginalName" then Some (StringValue (OriginalName p))
  else if String.eqb field "SeriesName" then Some (StringValue (SeriesName p))
  else if String.eqb field "SeasonNumber" then Some (Int64Value (SeasonNumber p))
  else if String.eqb field "EpisodeNumbers" then Some (SliceValue (EpisodeNumbers p))
  else if String.eqb field "ExtraInfo" then Some (StringValue (ExtraInfo p))
  else if String.eqb field "ReleaseGroup" then Some (StringValue (ReleaseGroup p))
  else if String.eqb field "AirDate" then Some (StructValue (AirDate p))
  else if String.eqb field "AbsoluteEpisodeNumbers"
    then Some (SliceValue (AbsoluteEpisodeNumbers p))
  else if String.eqb field "Score" then Some (IntValue (Score p))
  else if String.eqb field "Quality" then Some (QualityValue (Quality_ p))
  else if String.eqb field "Version" then Some (StringValue (Version p))
  else if String.eqb field "RegexUsed" then Some (StringValue (RegexUsed p))
  else None.

(** [r.Set(v)] for [r] the field [field] of [p]: the record after the
    assignment; [None] is the panic of [reflect] on a value of another
    type.  ([OriginalName], [Score] and [RegexUsed] are never assigned this
    way; they are settable all the same.) *)
Definition Set_ (field : string) (v : Value) (p : ParseResult) : option ParseResult :=
  match v with
  | StringValue s =>
      if String.eqb field "SeriesName" then Some (set_SeriesName s p)
      else if String.eqb field "ExtraInfo" then Some (set_ExtraInfo s p)
      else if String.eqb field "ReleaseGroup" then Some (set_ReleaseGroup s p)
      else if String.eqb field "Version" then Some (set_Version s p)
      else if String.eqb field "OriginalName" then
        Some {| OriginalName := s; SeriesName := SeriesName p;
                SeasonNumber := SeasonNumber p; EpisodeNumbers := EpisodeNumbers p;
                ExtraInfo := ExtraInfo p; ReleaseGroup := ReleaseGroup p;
                AirDate := AirDate p;
                AbsoluteEpisodeNumbers := AbsoluteEpisodeNumbers p; Score := Score p;
                Quality_ := Quality_ p; Version := Version p; RegexUsed := RegexUsed p |}
      else if String.eqb field "RegexUsed" then
        Some {| OriginalName := OriginalName p; SeriesName := SeriesName p;
                SeasonNumber := SeasonNumber p; EpisodeNumbers := EpisodeNumbers p;
                ExtraInfo := ExtraInfo p; ReleaseGroup := ReleaseGroup p;
                AirDate := AirDate p;
                AbsoluteEpisodeNumbers := AbsoluteEpisodeNumbers p; Score := Score p;
                Quality_ := Quality_ p; Version := Version p; RegexUsed := s |}
      else None
  | Int64Value n =>
      if String.eqb field "SeasonNumber" then Some (set_SeasonNumber n p) else None
  | IntValue n =>
      if String.eqb field "Score" then Some (set_Score n p) else None
  | SliceValue l =>
      if String.eqb field "EpisodeNumbers" then Some (set_EpisodeNumbers l p)
      else if String.eqb field "AbsoluteEpisodeNumbers"
        then Some (set_AbsoluteEpisodeNumbers l p)
      else None
  | StructValue t =>
      if String.eqb field "AirDate" then Some (set_AirDate t p) else None
  | QualityValue q =>
      if String.eqb field "Quality" then Some (set_Quality q p) else None
  end.

(** [combineResults].  [finalRes] is a pointer: the first component of the
    result is the record it points to afterwards, the second the returned
    [error].  [r.CanSet()] holds, since [r] is an exported field reached
    through a pointer.  [None] is a panic. *)
Definition combineResults (finalRes fileRes dirRes : ParseResult) (field : string)
  : option (ParseResult * option error) :=
  match FieldByName finalRes field, FieldByName fileRes field, FieldByName dirRes field with
  | Some r, Some fVal, Some dVal =>
      finalRes ← (if negb (isEmptyValue fVal)
                  then Set_ field fVal finalRes
                  else Set_ field dVal finalRes);
      Some (finalRes, None)
  | _, _, _ => Some (finalRes, Some ("Invalid field name given: " +:+ field))
  end.

(** The eight calls of [combineResults] in [ParseFile], their errors
    dropped as in the source. *)
Definition combineAll (finalRes fileNameResult dirNameResult : ParseResult)
  : option ParseResult :=
  '(finalRes, _) ← combineResults finalRes fileNameResult dirNameResult "AirDate";
  '(finalRes, _) ← combineResults finalRes fileNameResult dirNameResult "AbsoluteEpisodeNumbers";
  '(finalRes, _) ← combineResults finalRes fileNameResult dirNameResult "SeasonNumber";
  '(finalRes, _) ← combineResults finalRes fileNameResult dirNameResult "EpisodeNumbers";
  '(finalRes, _) ← combineResults finalRes dirNameResult fileNameResult "SeriesName";
  '(finalRes, _) ← combineResults finalRes dirNameResult fileNameResult "ExtraInfo";
  '(finalRes, _) ← combineResults finalRes dirNameResult fileNameResult "ReleaseGroup";
  '(finalRes, _) ← combineResults finalRes dirNameResult fileNameResult "Version";
  Some finalRes.

(** [ParseFile] tries to extract show and episode information from a file
    path; it considers both the filename and the directory.  [None] is a
    panic. *)
Definition ParseFile (np : NameParser) (name : string) : option ParseResult :=
  let '(dirName, fileName) := filepath.Split name in
  let fileName := stripExtension fileName in
  let dirNameBase := filepath.Base dirName in
  let '(fileNameResult, _) := parseString np fileName in
  let '(dirNameResult, _) := parseString np dirNameBase in
  let '(finalRes, _) := parseString np name in
  let q := QualityFromName name false in
  finalRes ← combineAll finalRes fileNameResult dirNameResult;
  Some (set_Quality q finalRes).

End Naming.

(** ** A concrete environment

    Used to run the parser on examples: calendar dates as triples, a quality
    detector that never finds a marker, an insertion sort for [sort.Sort],
    and rules whose pattern is one literal release name with named groups
    around parts of it. *)

Module Sample.

Definition Time : Type := Z * Z * Z.
Definition zeroTime : Time := (1, 1, 1).
Definition time_Date (year month day : Z) : Time := (year, month, day).

(** Reads the one date the examples use. *)
Definition TranslateYMD (s : string) (formats : list string) : Z * Z * Z :=
  if String.eqb s "2015.01.02" then (2015, 1, 2) else (0, 0, 0).

Definition Quality : Type := Z.
Definition UNKNOWN : Quality := 0.
Definition QualityFromName (name : string) (anime : bool) : Quality := UNKNOWN.
Definition isEmptyQuality (q : Quality) : bool := q =? 0.

Definition Result : Type := ParseResult (Time := Time) (Quality := Quality).

(** Insertion sort: [x] is put before the first element that is not
    [less] than it. *)
Fixpoint insert {A} (less : A -> A -> bool) (x : A) (l : list A) : list A :=
  match l with
  | [] => [x]
  | y :: l' => if less y x then y :: insert less x l' else x :: l
  end.

Fixpoint sort_Sort {A} (less : A -> A -> bool) (l : list A) : list A :=
  match l with
  | [] => []
  | x :: l' => insert less x (sort_Sort less l')
  end.

(** The pattern that matches exactly [s] and has the named groups
    [groups]. *)
Definition literal (s : string) (groups : list (string * string)) : Regexp :=
  fun str =>
    {| Matches := String.eqb str s;
       NamedString := fun name => snd <$> List.find (fun g => String.eqb (fst g) name) groups |}.

Definition rule (name s : string) (groups : list (string * string)) : NameRegex :=
  {| Name := name; Regex := literal s groups; TestStrings := [] |}.

Definition parseRule := parseRule zeroTime time_Date TranslateYMD UNKNOWN.
Definition parseString := parseString zeroTime time_Date TranslateYMD UNKNOWN sort_Sort.
Definition Parse := Parse zeroTime time_Date TranslateYMD UNKNOWN QualityFromName sort_Sort.
Definition ParseFile :=
  ParseFile zeroTime time_Date TranslateYMD UNKNOWN QualityFromName sort_Sort isEmptyQuality.

(** A rule with a version group. *)
Definition versioned : NameRegex :=
  rule "anime_version" "Show - 01v2"
    [("series_name", "Show"); ("ep_ab_num", "01"); ("version", "v2")].

(** A rule with a roman secondary episode number. *)
Definition roman : NameRegex :=
  rule "roman_extra" "Show.5-VI"
    [("series_name", "Show"); ("ep_num", "5"); ("extra_ep_num", "VI")].

(** A rule for season zero. *)
Definition specials : NameRegex :=
  rule "specials" "Show.S00E03"
    [("series_name", "Show"); ("season_num", "00"); ("ep_num", "03")].

(** A rule with three of the scoring captures, for index 2 of a
    catalog. *)
Definition scored : NameRegex :=
  rule "standard" "Show.S01E02-GRP"
    [("series_name", "Show"); ("season_num", "01"); ("ep_num", "02");
     ("release_group", "GRP")].

(** A catalog of three rules: a whole path, a dated directory, a bare
    episode. *)
Definition catalog : NameParser :=
  {| Regexes :=
       [ rule "path" "dir/Show.mkv" [("series_name", "Show")];
         rule "dated" "Show.2015.01.02" [("series_name", "Show"); ("air_date", "2015.01.02")];
         rule "bare" "episode" [("extra_info", "episode")] ] |}.

(** Two rules for the same name with one bonus point each. *)
Definition twins : NameParser :=
  {| Regexes :=
       [ rule "first" "Show.S01" [("series_name", "Show")];
         rule "second" "Show.S01" [("release_group", "GRP")] ] |}.

End Sample.


(** ** The media-file classifier *)

Definition mediaExtensions : list string :=
  [ "avi"; "mkv"; "mpg"; "mpeg"; "wmv";
    "ogm"; "mp4"; "iso"; "img"; "divx";
    "m2ts"; "m4v"; "ts"; "flv"; "f4v";
    "mov"; "rmvb"; "vob"; "dvr-ms"; "wtv";
    "ogv"; "3gp"; "webm" ].

(** The bytes of the class [[0-9A-Za-z]]; on ASCII text [[\W_]] is its
    complement. *)
Definition isAlnum (c : ascii) : bool :=
  let n := nat_of_ascii c in
  ((48 <=? n) && (n <=? 57) || (65 <=? n) && (n <=? 90) || (97 <=? n) && (n <=? 122))%nat.

Definition isDigit (c : ascii) : bool :=
  ((48 <=? nat_of_ascii c) && (nat_of_ascii c <=? 57))%nat.

(** A literal under [(?i)] at the head of [s]: the rest of [s] behind it.
    The literal is written in lower case. *)
Fixpoint stripPrefixFold (s literal : string) : option string :=
  match literal, s with
  | EmptyString, _ => Some s
  | String _ _, EmptyString => None
  | String a literal', String b s' =>
      if Ascii.eqb a (strings.toLowerByte b) then stripPrefixFold s' literal' else None
  end.

(** Digits followed by a byte: the digits are a part of [[0-9A-Za-z]], so
    the byte that has to be in [[\W_]] is the first one behind all of
    them. *)
Fixpoint dropDigits (s : string) : string :=
  match s with
  | EmptyString => EmptyString
  | String c s' => if isDigit c then dropDigits s' else s
  end.

(** The part of [sampleRegex] behind the boundary, at the head of [s]: the
    word [sample] under [(?i)], digits, and a byte of [[\W_]]. *)
Definition sampleAt (s : string) : bool :=
  match stripPrefixFold s "sample" with
  | Some rest =>
      match dropDigits rest with
      | String c _ => negb (isAlnum c)
      | EmptyString => false
      end
  | None => false
  end.

(** The search of [sampleRegex] through an ASCII string.  The pattern asks
    for the start of the text or a byte of [[\W_]], then what [sampleAt]
    reads; [boundary] tells whether the position is the start of the text or
    follows a byte of [[\W_]]. *)
Fixpoint sampleSearch (boundary : bool) (s : string) : bool :=
  match s with
  | EmptyString => false
  | String c s' => boundary && sampleAt s || sampleSearch (negb (isAlnum c)) s'
  end.

Definition sampleRegex_MatchString (s : string) : bool := sampleSearch true s.

(** The search of [extrasRegex], the pattern [(?i)extras?$], through an
    ASCII string: the text ends in [extra] or [extras]. *)
Fixpoint extrasRegex_MatchString (s : string) : bool :=
  match s with
  | EmptyString => false
  | String _ s' =>
      String.eqb (strings.ToLower s) "extra" || String.eqb (strings.ToLower s) "extras"
      || extrasRegex_MatchString s'
  end.

(** [IsMediaExtension] checks if the given string matches a known media
    file extension. *)
Definition IsMediaExtension (extension : string) : bool :=
  let extension := strings.TrimLeft extension "." in
  let extension := strings.ToLower extension in
  existsb (fun ext => String.eqb ext extension) mediaExtensions.

(** [IsMediaFile] checks if the given string is a media file. *)
Definition IsMediaFile (filename : string) : bool :=
  if sampleRegex_MatchString filename then false
  else if strings.HasPrefix filename "._" then false
  else
    let extension := filepath.Ext filename in
    let name := stripExtension filename in
    if extrasRegex_MatchString name then false
    else IsMediaExtension extension.

(** ** The rest of the name parser *)

(** The method [FirstEpisode] of a [ParseResult]. *)
Definition FirstEpisode {Time Quality : Type}
    (r : ParseResult (Time := Time) (Quality := Quality)) : Z :=
  match EpisodeNumbers r with
  | e :: _ => e
  | [] =>
      match AbsoluteEpisodeNumbers r with
      | e :: _ => e
      | [] => 0
      end
  end.

Definition NewNameParser (regexes : list NameRegex) : NameParser :=
  {| Regexes := regexes |}.

(** [FullSanitizeSceneName]; the class of the pattern is [[. -]]. *)
Definition FullSanitizeSceneName (name : string) : string :=
  let name := SanitizeSceneName name in
  let name := regexp.ReplaceAllClass ". -" name " " in
  let name := strings.ToLower name in
  let name := strings.TrimSpace name in
  name.

(** ** Providers *)

Module providers.

(** [ProviderType] is an [int]; [NZB], [TORRENT] and [UNKNOWN] count up
    from 0. *)
Definition ProviderType : Type := Z.
Definition NZB : ProviderType := 0.
Definition TORRENT : ProviderType := 1.
Definition UNKNOWN : ProviderType := 2.

Definition types : list string := [ "NZB"; "TORRENT"; "UNKNOWN" ].

(** [ProviderType.String]: [types[t]]; [None] is the panic of an index out
    of range. *)
Definition String_ (t : ProviderType) : option string :=
  if t <? 0 then None else types !! Z.to_nat t.

(** The loop of [ProviderTypeFromString] from index [i] on. *)
Fixpoint fromStringLoop (s : string) (i : nat) (ts : list string)
  : ProviderType * option string :=
  match ts with
  | [] => (UNKNOWN, Some ("Unknown Provider Type: " +:+ s))
  | pt :: ts' => if String.eqb pt s then (Z.of_nat i, None) else fromStringLoop s (S i) ts'
  end.

(** [ProviderTypeFromString] converts a string name to a [ProviderType]. *)
Definition ProviderTypeFromString (s : string) : ProviderType * option string :=
  fromStringLoop s 0 types.

Section Registry.

(** [ProviderResult] describes what providers return from searches; [Age]
    is a pointer to a [time.Time]. *)
Context {Time : Type}.

Record ProviderResult := {
  Type_ : string;
  Age : option Time;
  PName : string;
  Size : Z;
  PQuality : string;
  ProviderName : string;
  URL : string;
  Seeders : Z
}.

(** The interface [Provider].  What a provider answers to a search or a
    download comes from the network and is taken as given. *)
Record Provider := {
  TvSearch : string -> Z -> Z -> list ProviderResult * option string;
  GetURL : string -> string * string * option string;
  PType : ProviderType
}.

(** One turn of the loop of [ProviderRegistry.Search]. *)
Definition searchStep (showname : string) (season epnum : Z)
    (res : list ProviderResult) (entry : string * Provider) : list ProviderResult :=
  let '(resultset, err) := TvSearch entry.2 showname season epnum in
  match err with
  | None => res ++ resultset
  | Some _ => res
  end.

(** [ProviderRegistry.Search] when the [range] over the map visits the
    entries in the order [order].  Go leaves that order open: any
    permutation of the entries of the map can be the one. *)
Definition SearchIn (order : list (string * Provider))
    (showname : string) (season epnum : Z) : list ProviderResult :=
  foldl (searchStep showname season epnum) [] order.

(** What one provider adds to the results: its result set, or nothing when
    it returns an error. *)
Definition okResults (showname : string) (season epnum : Z)
    (entry : string * Provider) : list ProviderResult :=
  match TvSearch entry.2 showname season epnum with
  | (resultset, None) => resultset
  | (_, Some _) => []
  end.

(** The results [pr.Search] can return. *)
Definition Search (pr : gmap string Provider) (showname : string) (season epnum : Z)
    (res : list ProviderResult) : Prop :=
  exists order, order ≡ₚ map_to_list pr /\ res = SearchIn order showname season epnum.

End Registry.

End providers.

(** A registry of two providers for the examples: one answers with one
    result, the other with an error next to a result set that has to be
    dropped. *)
Module SampleProviders.

Definition result (name : string) : providers.ProviderResult (Time := Z) :=
  {| providers.Type_ := "torrent"; providers.Age := None; providers.PName := name;
     providers.Size := 700; providers.PQuality := "HDTV";
     providers.ProviderName := "sample"; providers.URL := "";
     providers.Seeders := 1 |}.

Definition good : providers.Provider :=
  {| providers.TvSearch := fun showname _ _ => ([result showname], None);
     providers.GetURL := fun _ => ("", "", None);
     providers.PType := providers.TORRENT |}.

Definition failing : providers.Provider :=
  {| providers.TvSearch := fun _ _ _ => ([result "stale"], Some "timeout");
     providers.GetURL := fun _ => ("", "", Some "timeout");
     providers.PType := providers.NZB |}.

Definition registry : gmap string providers.Provider :=
  <["nyaa" := good]> (<["down" := failing]> ∅).

End SampleProviders.

(** The strings of ASCII bytes. *)
Fixpoint isASCII (s : string) : bool :=
  match s with
  | EmptyString => true
  | String c s' => (nat_of_ascii c <? 128)%nat && isASCII s'
  end.

(** Spec-side vocabulary used in the statements below. *)

(** The strings made of the byte [0] only. *)
Fixpoint allZeros (s : string) : bool :=
  match s with
  | EmptyString => true
  | String c s' => Ascii.eqb c "0" && allZeros s'
  end.

(** The strings made of decimal digits only, as a group [\d+] captures. *)
Fixpoint allDigits (s : string) : bool :=
  match s with
  | EmptyString => true
  | String c s' => bool_decide (is_Some (strconv.digit c)) && allDigits s'
  end.

(** One bonus point when the group [k] was captured. *)
Definition bonus (k : string) (matches : gmap string string) : Z :=
  match matches !! k with
  | Some _ => 1
  | None => 0
  end.

(** The five captures that award a point. *)
Definition bonusPoints (matches : gmap string string) : Z :=
  bonus "series_name" matches + bonus "series_num" matches
  + bonus "season_num" matches + bonus "air_date" matches
  + bonus "release_group" matches.

(** The field names [ParseFile] hands to [combineResults]. *)
Definition mergedFields : list string :=
  [ "AirDate"; "AbsoluteEpisodeNumbers"; "SeasonNumber"; "EpisodeNumbers";
    "SeriesName"; "ExtraInfo"; "ReleaseGroup"; "Version" ].

(** The merge policy of [combineResults] on one field: the preferred value
    unless it is empty, else the fallback. *)
Definition prefer {A} (empty : A -> bool) (preferred fallback : A) : A :=
  if empty preferred then fallback else preferred.

Definition emptyString (s : string) : bool := Nat.eqb (String.length s) 0.
Definition emptySlice (l : list Z) : bool := Nat.eqb (length l) 0.
Definition zeroInt (n : Z) : bool := n =? 0.

(** A run of [n] periods. *)
Fixpoint dots (n : nat) : string :=
  match n with
  | O => EmptyString
  | S n' => String "." (dots n')
  end.

(** Whether the position behind [pre] is one where [sampleRegex] may start
    the word: [pre] ends in a byte of [[\W_]], or is empty at a position that
    is one already ([start]). *)
Fixpoint boundaryAfter (start : bool) (pre : string) : bool :=
  match pre with
  | EmptyString => start
  | String c pre' => boundaryAfter (negb (isAlnum c)) pre'
  end.

(** * Facts *)

(** ** The library functions and the sanitizers on examples *)

Example Split_ex :
  filepath.Split "/tv/Breaking Bad/Breaking.Bad.S01E01.mkv"
  = ("/tv/Breaking Bad/", "Breaking.Bad.S01E01.mkv")
  /\ filepath.Split "plain.mkv" = ("", "plain.mkv").
Proof. split; reflexivity. Qed.

Example Base_ex :
  filepath.Base "/tv/Breaking Bad/" = "Breaking Bad" /\ filepath.Base "" = "."
  /\ filepath.Base "//" = "/".
Proof. repeat split; reflexivity. Qed.

Example Ext_ex :
  filepath.Ext "Breaking.Bad.S01E01.mkv" = ".mkv" /\ filepath.Ext "a.b/c" = ""
  /\ stripExtension "Breaking.Bad.S01E01.mkv" = "Breaking.Bad.S01E01".
Proof. repeat split; reflexivity. Qed.

Example ParseInt_ex :
  strconv.ParseInt "07" = (7, None)
  /\ strconv.ParseInt "" = (0, Some strconv.ErrSyntax)
  /\ strconv.ParseInt "9223372036854775808" = (2 ^ 63 - 1, Some strconv.ErrRange)
  /\ strconv.ParseInt "-9223372036854775808" = (- 2 ^ 63, None)
  /\ strconv.ParseInt "-5" = (-5, None)
  /\ strconv.ParseInt "IV" = (0, Some strconv.ErrSyntax).
Proof. repeat split; reflexivity. Qed.

Example Replace_ex :
  strings.Replace "a- b- c" "- " "." = "a.b.c" /\ strings.Replace "a---b" "--" "-" = "a--b".
Proof. split; reflexivity. Qed.

Example Trim_ex :
  strings.Trim "..a.b.." "." = "a.b" /\ strings.TrimLeft "0070" "0" = "70"
  /\ strings.TrimSuffix "a.b." "." = "a.b" /\ strings.TrimSuffix "a.b" "." = "a.b".
Proof. repeat split; reflexivity. Qed.

Example CleanSeriesName_ex :
  CleanSeriesName "  The.Show  " = "The.Show"
  /\ CleanSeriesName ("A/B" +:+ backslash +:+ "C") = "A-B-C".
Proof. split; reflexivity. Qed.

Example SanitizeSceneName_ex : SanitizeSceneName "Show: Part (2)" = "Show.Part.2".
Proof. reflexivity. Qed.

(** ** The Go library functions *)

Lemma TrimLeft_allZeros (s : string) :
  allZeros s = true -> strings.TrimLeft s "0" = "".
Proof.
  induction s as [|c s IH]; simpl; [done|].
  intros [Hc Hs]%andb_prop. rewrite orb_false_r, Hc. auto.
Qed.

Lemma ParseInt_empty : strconv.ParseInt "" = (0, Some strconv.ErrSyntax).
Proof. reflexivity. Qed.

Lemma digit_range (c : ascii) (d : Z) : strconv.digit c = Some d -> 0 <= d <= 9.
Proof.
  unfold strconv.digit. case_match eqn:H; [|done].
  apply andb_prop in H as [H1%Z.leb_le H2%Z.leb_le]. intros [= <-]. lia.
Qed.

Lemma digit_zero (c : ascii) : strconv.digit c = Some 0 -> c = "0"%char.
Proof.
  unfold strconv.digit. case_match eqn:H; [|done].
  intros [= Hd]. assert (nat_of_ascii c = 48%nat) as Hn by lia.
  rewrite <- (ascii_nat_embedding c), Hn. reflexivity.
Qed.

Lemma digits_ge (s : string) (acc n : Z) :
  0 <= acc -> strconv.digits acc s = Some n -> acc <= n.
Proof.
  revert acc. induction s as [|c s IH]; simpl; intros acc Hacc.
  - intros [= <-]. lia.
  - destruct (strconv.digit c) as [d|] eqn:Hd; [|done].
    apply digit_range in Hd. intros H%IH; lia.
Qed.

Lemma TrimLeft_allDigits (s : string) :
  allDigits s = true -> allDigits (strings.TrimLeft s "0") = true.
Proof.
  induction s as [|c s IH]; simpl; [done|].
  intros [Hc Hs]%andb_prop. case_match; [auto|]. simpl. by rewrite Hc, Hs.
Qed.

Lemma TrimLeft_head (s t : string) (c : ascii) :
  strings.TrimLeft s "0" = String c t -> c <> "0"%char.
Proof.
  induction s as [|a s IH]; simpl; [done|].
  rewrite orb_false_r. destruct (Ascii.eqb_spec a "0") as [->|Ha]; [done|].
  by intros [= <- _].
Qed.

(** A run of digits without leading zeros converts to a positive number,
    when it converts at all. *)
Lemma ParseInt_trimmed_positive (m : string) (n : Z) :
  allDigits m = true ->
  strconv.ParseInt (strings.TrimLeft m "0") = (n, None) -> 1 <= n.
Proof.
  intros Hd%TrimLeft_allDigits.
  destruct (strings.TrimLeft m "0") as [|c t] eqn:Ht; [done|].
  apply TrimLeft_head in Ht. simpl in Hd. apply andb_prop in Hd as [Hc _].
  apply bool_decide_eq_true in Hc as [d Hc].
  assert (1 <= d) as Hd1.
  { pose proof (digit_range _ _ Hc). destruct (decide (d = 0)) as [->|]; [|lia].
    by apply digit_zero in Hc. }
  assert (Ascii.eqb c "+" = false /\ Ascii.eqb c "-" = false) as [Hplus Hminus].
  { split; apply Ascii.eqb_neq; intros ->; done. }
  unfold strconv.ParseInt. rewrite Hplus, Hminus. cbn [orb negb andb].
  unfold strconv.ParseUint. cbn [strconv.digits]. rewrite Hc.
  destruct (strconv.digits _ t) as [u|] eqn:Hu; [|done].
  apply digits_ge in Hu; [|lia].
  repeat case_match; intros; simplify_eq; lia.
Qed.

Lemma emptyString_spec (s : string) : emptyString s = true <-> s = "".
Proof. unfold emptyString. destruct s; simpl; split; congruence. Qed.

Lemma emptySlice_spec (l : list Z) : emptySlice l = true <-> l = [].
Proof. unfold emptySlice. destruct l; simpl; split; congruence. Qed.

Lemma zeroInt_spec (n : Z) : zeroInt n = true <-> n = 0.
Proof. apply Z.eqb_eq. Qed.

(** ** [regexNamedMatch] *)

Lemma addNamed_lookup (m : Matcher) (acc : gmap string string) (n k v : string) :
  addNamed m acc n !! k = Some v <->
  (n = k /\ NamedString m k = Some v /\ v <> "")
  \/ (~ (n = k /\ exists w, NamedString m k = Some w /\ w <> "") /\ acc !! k = Some v).
Proof.
  unfold addNamed. destruct (NamedString m n) as [w|] eqn:Hn.
  - destruct (String.eqb_spec w "") as [->|Hw].
    + split.
      * intros Hk. right. split; [|done]. intros [-> (w & Hw & Hne)]. congruence.
      * intros [(-> & Hv & Hne)|[_ Hk]]; [congruence|done].
    + destruct (decide (n = k)) as [->|Hnk].
      * rewrite lookup_insert_eq. split.
        -- intros [= <-]. left. done.
        -- intros [(_ & Hv & _)|[Hno _]]; [congruence|].
           destruct Hno. split; [done|]. eauto.
      * rewrite lookup_insert_ne by done. split.
        -- intros Hk. right. split; [|done]. by intros [? _].
        -- by intros [(? & _)|[_ Hk]].
  - split.
    + intros Hk. right. split; [|done]. intros [-> (w & Hw & _)]. congruence.
    + intros [(-> & Hv & _)|[_ Hk]]; [congruence|done].
Qed.

(** The map built by [regexNamedMatch] holds exactly the non-empty captures
    of the names in the list. *)
Lemma foldl_addNamed_lookup (m : Matcher) (names : list string) (k v : string) :
  foldl (addNamed m) ∅ names !! k = Some v <->
  k ∈ names /\ NamedString m k = Some v /\ v <> "".
Proof.
  induction names as [|n names IH] using rev_ind.
  - simpl. rewrite lookup_empty. split; [done|]. intros [H%elem_of_nil _]. done.
  - rewrite foldl_snoc, addNamed_lookup, IH, elem_of_app, list_elem_of_singleton.
    split.
    + intros [(-> & Hv & Hne)|(_ & Hin & Hv & Hne)]; auto.
    + intros ([Hin| ->] & Hv & Hne).
      * destruct (decide (n = k)) as [->|Hnk]; [left; done|].
        right. split; [by intros [? _]|done].
      * left. done.
Qed.

Lemma regexNamedMatch_lookup (re : Regexp) (str : string) (matches : gmap string string)
    (k v : string) :
  regexNamedMatch re str = Some matches ->
  (matches !! k = Some v <->
   k ∈ knownMatches /\ NamedString (re str) k = Some v /\ v <> "").
Proof.
  intros Hm.
  assert (matches = foldl (addNamed (re str)) ∅ knownMatches) as ->.
  { unfold regexNamedMatch in Hm. destruct (Matches (re str)); [|done].
    injection Hm as <-. reflexivity. }
  apply foldl_addNamed_lookup.
Qed.

(** [version] is not one of [knownMatches]: the map never has it. *)
Lemma regexNamedMatch_version (re : Regexp) (str : string) (matches : gmap string string) :
  regexNamedMatch re str = Some matches -> matches !! "version" = None.
Proof.
  intros Hm. destruct (matches !! "version") as [v|] eqn:Hv; [|done].
  apply (regexNamedMatch_lookup _ _ _ _ _ Hm) in Hv as [Hin _].
  unfold knownMatches in Hin.
  repeat (apply elem_of_cons in Hin as [Hin|Hin]; [discriminate Hin|]).
  by apply elem_of_nil in Hin.
Qed.

(** ** The blocks of the rule loop *)

Section RuleFacts.

Context {Time Quality : Type}.
Variable zeroTime : Time.
Variable time_Date : Z -> Z -> Z -> Time.
Variable TranslateYMD : string -> list string -> Z * Z * Z.
Variable zeroQuality : Quality.

Implicit Types (pr : ParseResult (Time := Time) (Quality := Quality)).
Implicit Types (matches : gmap string string).

Local Abbreviation parseRule := (parseRule zeroTime time_Date TranslateYMD zeroQuality).
Local Abbreviation initialResult := (initialResult zeroTime zeroQuality).
Local Abbreviation on_air_date := (on_air_date time_Date TranslateYMD).

Local Ltac block :=
  unfold bonus;
  intros; repeat case_match; simplify_eq; simpl; repeat split; auto; lia.

Lemma on_series_name_frame matches pr :
  let pr' := on_series_name matches pr in
  Score pr' = Score pr + bonus "series_name" matches
  /\ EpisodeNumbers pr' = EpisodeNumbers pr /\ SeasonNumber pr' = SeasonNumber pr /\ AirDate pr' = AirDate pr /\ Version pr' = Version pr.
Proof. unfold on_series_name. block. Qed.

Lemma on_series_num_frame matches pr :
  let pr' := on_series_num matches pr in
  Score pr' = Score pr + bonus "series_num" matches
  /\ EpisodeNumbers pr' = EpisodeNumbers pr /\ SeasonNumber pr' = SeasonNumber pr /\ AirDate pr' = AirDate pr /\ Version pr' = Version pr.
Proof. unfold on_series_num. block. Qed.

Lemma on_season_num_frame matches pr pr' :
  on_season_num matches pr = Some pr' ->
  Score pr' = Score pr + bonus "season_num" matches
  /\ EpisodeNumbers pr' = EpisodeNumbers pr /\ AirDate pr' = AirDate pr /\ Version pr' = Version pr.
Proof. unfold on_season_num. block. Qed.

Lemma on_ep_num_frame matches pr pr' :
  on_ep_num matches pr = Some pr' ->
  Score pr' = Score pr
  /\ SeasonNumber pr' = SeasonNumber pr /\ AirDate pr' = AirDate pr /\ Version pr' = Version pr.
Proof. unfold on_ep_num. block. Qed.

Lemma on_ep_ab_num_frame matches pr pr' :
  on_ep_ab_num matches pr = Some pr' ->
  Score pr' = Score pr
  /\ EpisodeNumbers pr' = EpisodeNumbers pr /\ SeasonNumber pr' = SeasonNumber pr /\ AirDate pr' = AirDate pr /\ Version pr' = Version pr.
Proof. unfold on_ep_ab_num. block. Qed.

Lemma on_air_date_frame matches pr pr' :
  on_air_date matches pr = Some pr' ->
  Score pr' = Score pr + bonus "air_date" matches
  /\ EpisodeNumbers pr' = EpisodeNumbers pr /\ SeasonNumber pr' = SeasonNumber pr /\ Version pr' = Version pr.
Proof. unfold on_air_date. block. Qed.

Lemma on_extra_info_id matches pr : on_extra_info matches pr = pr.
Proof. unfold on_extra_info. by case_match. Qed.

Lemma on_release_group_frame matches pr :
  let pr' := on_release_group matches pr in
  Score pr' = Score pr + bonus "release_group" matches
  /\ EpisodeNumbers pr' = EpisodeNumbers pr /\ SeasonNumber pr' = SeasonNumber pr /\ AirDate pr' = AirDate pr /\ Version pr' = Version pr.
Proof. unfold on_release_group. block. Qed.

Lemma on_version_frame matches pr :
  let pr' := on_version matches pr in
  Score pr' = Score pr
  /\ EpisodeNumbers pr' = EpisodeNumbers pr /\ SeasonNumber pr' = SeasonNumber pr /\ AirDate pr' = AirDate pr.
Proof. unfold on_version. block. Qed.

Lemma on_version_None matches pr :
  matches !! "version" = None -> on_version matches pr = pr.
Proof. unfold on_version. by intros ->. Qed.

(** The season block stores the converted capture. *)
Lemma on_season_num_value matches pr pr' m :
  on_season_num matches pr = Some pr' -> matches !! "season_num" = Some m ->
  strconv.ParseInt (strings.TrimLeft m "0") = (SeasonNumber pr', None).
Proof.
  unfold on_season_num. intros H Hm. rewrite Hm in H.
  destruct (strconv.ParseInt _) as [sn [e|]]; by simplify_eq.
Qed.

(** The air-date block stores the translated date, whose year and month
    are not zero. *)
Lemma on_air_date_value matches pr pr' m :
  on_air_date matches pr = Some pr' -> matches !! "air_date" = Some m ->
  exists year month day,
    TranslateYMD m [""; "D"; "MD"; "YMD"] = (year, month, day)
    /\ year <> 0 /\ month <> 0 /\ AirDate pr' = time_Date year month day.
Proof.
  unfold on_air_date. intros H Hm. rewrite Hm in H.
  destruct (TranslateYMD m _) as [[year month] day].
  destruct (year =? 0) eqn:Hy; [done|]. destruct (month =? 0) eqn:Hmo; [done|].
  simpl in H. simplify_eq. exists year, month, day.
  apply Z.eqb_neq in Hy, Hmo. done.
Qed.

(** The turns the loop body can take, block by block. *)
Lemma parseRule_Some name i r pr :
  parseRule name i r = Some pr <->
  exists matches p1 p2 p3 p4,
    regexNamedMatch (Regex r) name = Some matches
    /\ on_season_num matches
         (on_series_num matches (on_series_name matches (initialResult name i r)))
       = Some p1
    /\ on_ep_num matches p1 = Some p2
    /\ on_ep_ab_num matches p2 = Some p3
    /\ on_air_date matches p3 = Some p4
    /\ pr = on_version matches (on_release_group matches (on_extra_info matches p4)).
Proof.
  unfold parseRule. split.
  - intros H.
    destruct (regexNamedMatch _ _) as [matches|]; [|discriminate H].
    cbn [mbind option_bind] in H.
    destruct (on_season_num _ _) as [p1|] eqn:H1; [|discriminate H].
    cbn [mbind option_bind] in H.
    destruct (on_ep_num _ _) as [p2|] eqn:H2; [|discriminate H].
    cbn [mbind option_bind] in H.
    destruct (on_ep_ab_num _ _) as [p3|] eqn:H3; [|discriminate H].
    cbn [mbind option_bind] in H.
    destruct (on_air_date _ _) as [p4|] eqn:H4; [|discriminate H].
    cbn [mbind option_bind] in H. injection H as <-.
    by exists matches, p1, p2, p3, p4.
  - intros (matches & p1 & p2 & p3 & p4 & -> & H1 & H2 & H3 & H4 & ->).
    cbn [mbind option_bind]. rewrite H1. cbn [mbind option_bind].
    rewrite H2. cbn [mbind option_bind]. rewrite H3. cbn [mbind option_bind].
    rewrite H4. reflexivity.
Qed.

(** A produced candidate, with the frame facts of all its blocks. *)
Lemma parseRule_fields name i r pr matches :
  parseRule name i r = Some pr ->
  regexNamedMatch (Regex r) name = Some matches ->
  exists p1 p2 p3 p4,
    on_season_num matches
      (on_series_num matches (on_series_name matches (initialResult name i r))) = Some p1
    /\ on_ep_num matches p1 = Some p2
    /\ on_ep_ab_num matches p2 = Some p3
    /\ on_air_date matches p3 = Some p4
    /\ Score pr = - Z.of_nat i + bonusPoints matches
    /\ Version pr = ""
    /\ EpisodeNumbers p1 = []
    /\ EpisodeNumbers pr = EpisodeNumbers p2
    /\ SeasonNumber pr = SeasonNumber p1
    /\ AirDate pr = AirDate p4.
Proof.
  intros (matches' & p1 & p2 & p3 & p4 & Hm & H1 & H2 & H3 & H4 & ->)%parseRule_Some Hm'.
  assert (matches' = matches) as -> by congruence.
  exists p1, p2, p3, p4. repeat (split; [done|]).
  pose proof (on_series_name_frame matches (initialResult name i r)) as (Sa & Ea & Na & Da & Va).
  pose proof (on_series_num_frame matches
                (on_series_name matches (initialResult name i r))) as (Sb & Eb & Nb & Db & Vb).
  pose proof (on_season_num_frame _ _ _ H1) as (S1 & E1 & D1 & V1).
  pose proof (on_ep_num_frame _ _ _ H2) as (S2 & N2 & D2 & V2).
  pose proof (on_ep_ab_num_frame _ _ _ H3) as (S3 & E3 & N3 & D3 & V3).
  pose proof (on_air_date_frame _ _ _ H4) as (S4 & E4 & N4 & V4).
  rewrite on_extra_info_id.
  pose proof (on_release_group_frame matches p4) as (Sg & Eg & Ng & Dg & Vg).
  pose proof (on_version_frame matches (on_release_group matches p4)) as (Sv & Ev & Nv & Dv).
  cbv zeta in *.
  rewrite (on_version_None matches) in * by by eapply regexNamedMatch_version.
  unfold bonusPoints. simpl in Sa, Ea, Va.
  repeat split; congruence || lia.
Qed.

(** No block touches the name of the rule or the input. *)
Lemma parseRule_names name i r pr :
  parseRule name i r = Some pr -> RegexUsed pr = Name r /\ OriginalName pr = name.
Proof.
  intros (matches & p1 & p2 & p3 & p4 & _ & H1 & H2 & H3 & H4 & ->)%parseRule_Some.
  assert (RegexUsed p1 = Name r /\ OriginalName p1 = name) as [R1 O1].
  { revert H1. unfold on_season_num, on_series_num, on_series_name.
    intros; repeat case_match; by simplify_eq. }
  assert (RegexUsed p2 = RegexUsed p1 /\ OriginalName p2 = OriginalName p1) as [R2 O2].
  { revert H2. unfold on_ep_num. intros; repeat case_match; by simplify_eq. }
  assert (RegexUsed p3 = RegexUsed p2 /\ OriginalName p3 = OriginalName p2) as [R3 O3].
  { revert H3. unfold on_ep_ab_num. intros; repeat case_match; by simplify_eq. }
  assert (RegexUsed p4 = RegexUsed p3 /\ OriginalName p4 = OriginalName p3) as [R4 O4].
  { revert H4. unfold on_air_date. intros; repeat case_match; by simplify_eq. }
  rewrite <- R1, <- O1, <- R2, <- O2, <- R3, <- O3, <- R4, <- O4.
  unfold on_version, on_release_group, on_extra_info. by repeat case_match.
Qed.

(** C6.  A candidate of the rule at index [i] scores [-i] plus one point
    for each of the series-name, series-number, season-number, air-date and
    release-group captures; the episode and absolute-episode captures give
    nothing.  In a candidate a captured season number did convert and a
    captured air date was parsed to a year and a month that are not zero;
    a capture is in the map exactly when the group is non-empty. *)
Theorem parseRule_Score name i r pr matches :
  parseRule name i r = Some pr ->
  regexNamedMatch (Regex r) name = Some matches ->
  Score pr = - Z.of_nat i
             + bonus "series_name" matches + bonus "series_num" matches
             + bonus "season_num" matches + bonus "air_date" matches
             + bonus "release_group" matches
  /\ (forall k, k ∈ knownMatches ->
        (bonus k matches = 1 <->
         exists v, NamedString (Regex r name) k = Some v /\ v <> "")
        /\ (bonus k matches = 0 <->
            ~ exists v, NamedString (Regex r name) k = Some v /\ v <> ""))
  /\ (forall m, matches !! "season_num" = Some m ->
        strconv.ParseInt (strings.TrimLeft m "0") = (SeasonNumber pr, None))
  /\ (forall m, matches !! "air_date" = Some m ->
        exists year month day,
          TranslateYMD m [""; "D"; "MD"; "YMD"] = (year, month, day)
          /\ year <> 0 /\ month <> 0 /\ AirDate pr = time_Date year month day).
Proof.
  intros Hpr Hm.
  destruct (parseRule_fields _ _ _ _ _ Hpr Hm)
    as (p1 & p2 & p3 & p4 & H1 & H2 & H3 & H4 & HS & _ & _ & _ & HN & HD).
  split; [|split; [|split]].
  - rewrite HS. unfold bonusPoints. lia.
  - intros k Hk. unfold bonus.
    destruct (matches !! k) as [v|] eqn:Hv.
    + apply (regexNamedMatch_lookup _ _ _ _ _ Hm) in Hv as (_ & Hv & Hne).
      assert (exists v, NamedString (Regex r name) k = Some v /\ v <> "") as Hcap
        by eauto.
      split; split; intros H; done.
    + assert (~ exists v, NamedString (Regex r name) k = Some v /\ v <> "") as Hno.
      { intros (v & Hv' & Hne).
        assert (matches !! k = Some v) as Hs
          by by apply (regexNamedMatch_lookup _ _ _ _ _ Hm).
        congruence. }
      split; split; intros H; try done.
  - intros m Hs. rewrite HN. by eapply on_season_num_value.
  - intros m Hs. rewrite HD. by eapply on_air_date_value.
Qed.

(** C4.  No candidate carries a version tag: [version] is not among
    [knownMatches], so the map never has the key that the last block of
    the loop body reads. *)
Theorem parseRule_Version name i r pr :
  parseRule name i r = Some pr -> Version pr = "".
Proof.
  intros Hpr.
  destruct (regexNamedMatch (Regex r) name) as [matches|] eqn:Hm.
  - by destruct (parseRule_fields _ _ _ _ _ Hpr Hm)
      as (? & ? & ? & ? & _ & _ & _ & _ & _ & HV & _).
  - apply parseRule_Some in Hpr as (? & ? & ? & ? & ? & ? & _). congruence.
Qed.

(** C2.  When the primary episode number converts and the secondary one
    does not, the candidate is kept and its episode numbers stay empty:
    the primary number is dropped. *)
Theorem parseRule_extra_ep_num_failure name i r pr matches m extraEp :
  parseRule name i r = Some pr ->
  regexNamedMatch (Regex r) name = Some matches ->
  matches !! "ep_num" = Some m ->
  matches !! "extra_ep_num" = Some extraEp ->
  (strconv.ParseInt extraEp).2 <> None ->
  (strconv.ParseInt (strings.TrimLeft m "0")).2 = None
  /\ EpisodeNumbers pr = [].
Proof.
  intros Hpr Hm He Hx Hfail.
  destruct (parseRule_fields _ _ _ _ _ Hpr Hm)
    as (p1 & p2 & p3 & p4 & H1 & H2 & H3 & H4 & _ & _ & HE1 & HE & _).
  rewrite HE. unfold on_ep_num in H2. rewrite He, Hx in H2. cbv zeta in H2.
  destruct (strconv.ParseInt (strings.TrimLeft m "0")) as [en [e|]]; [done|].
  destruct (strconv.ParseInt extraEp) as [x [e|]]; [|done].
  by simplify_eq.
Qed.

(** The season and the primary episode blocks leave the turn on a capture
    of zeros. *)
Lemma on_season_num_zeros matches pr m :
  matches !! "season_num" = Some m -> allZeros m = true ->
  on_season_num matches pr = None.
Proof.
  intros Hs Hz. unfold on_season_num. by rewrite Hs, (TrimLeft_allZeros _ Hz).
Qed.

Lemma on_ep_num_zeros matches pr m :
  matches !! "ep_num" = Some m -> allZeros m = true ->
  on_ep_num matches pr = None.
Proof.
  intros Hs Hz. unfold on_ep_num. by rewrite Hs, (TrimLeft_allZeros _ Hz).
Qed.

(** C10.  A season-number or primary episode-number capture made of zeros
    only is trimmed to the empty string, which [ParseInt] rejects, and the
    rule gives no candidate. *)
Theorem parseRule_zero_capture name i r matches m :
  regexNamedMatch (Regex r) name = Some matches ->
  matches !! "season_num" = Some m \/ matches !! "ep_num" = Some m ->
  allZeros m = true ->
  strings.TrimLeft m "0" = ""
  /\ strconv.ParseInt (strings.TrimLeft m "0") = (0, Some strconv.ErrSyntax)
  /\ parseRule name i r = None.
Proof.
  intros Hm Hcap Hz. rewrite (TrimLeft_allZeros _ Hz). repeat split.
  destruct (parseRule name i r) as [pr|] eqn:Hpr; [|done]. exfalso.
  destruct (parseRule_fields _ _ _ _ _ Hpr Hm)
    as (p1 & p2 & p3 & p4 & H1 & H2 & _).
  destruct Hcap as [Hs|He].
  - by rewrite (on_season_num_zeros _ _ _ Hs Hz) in H1.
  - by rewrite (on_ep_num_zeros _ _ _ He Hz) in H2.
Qed.

(** X23.  Hence a season or a first episode read from a run of digits is
    never zero. *)
Lemma parseRule_no_zero name i r pr matches :
  parseRule name i r = Some pr ->
  regexNamedMatch (Regex r) name = Some matches ->
  (forall m, matches !! "season_num" = Some m -> allDigits m = true ->
     1 <= SeasonNumber pr)
  /\ (forall m e, matches !! "ep_num" = Some m -> allDigits m = true ->
        head (EpisodeNumbers pr) = Some e -> 1 <= e).
Proof.
  intros Hpr Hm.
  destruct (parseRule_fields _ _ _ _ _ Hpr Hm)
    as (p1 & p2 & p3 & p4 & H1 & H2 & _ & _ & _ & _ & HE1 & HE & HN & _).
  split.
  - intros m Hs Hd. rewrite HN.
    apply (ParseInt_trimmed_positive m); [done|]. by eapply on_season_num_value.
  - intros m e He Hd. rewrite HE. unfold on_ep_num in H2. rewrite He in H2.
    cbv zeta in H2.
    destruct (strconv.ParseInt (strings.TrimLeft m "0")) as [en [err|]] eqn:Hen; [done|].
    apply ParseInt_trimmed_positive in Hen; [|done].
    destruct (matches !! "extra_ep_num") as [x|].
    + destruct (strconv.ParseInt x) as [xc [err|]]; simplify_eq.
      * by rewrite HE1.
      * simpl. by intros [= <-].
    + simplify_eq. simpl. by intros [= <-].
Qed.

End RuleFacts.

(** ** The field merge *)

Section MergeFacts.

Context {Time Quality : Type}.
Variable isEmptyQuality : Quality -> bool.

Implicit Types (finalRes fileRes dirRes : ParseResult (Time := Time) (Quality := Quality)).

Local Abbreviation combineResults := (combineResults isEmptyQuality).
Local Abbreviation combineAll := (combineAll isEmptyQuality).

Local Ltac combine :=
  unfold combineResults, FieldByName, Set_, prefer,
    emptyString, emptySlice, zeroInt; simpl;
  intros; repeat case_match; simplify_eq; reflexivity.

(** [time.Time] is a struct: [isEmptyValue] is [false] on every date, the
    zero date included, and the first source is always taken. *)
Lemma combineResults_AirDate finalRes fileRes dirRes :
  combineResults finalRes fileRes dirRes "AirDate"
  = Some (set_AirDate (AirDate fileRes) finalRes, None).
Proof. combine. Qed.

Lemma combineResults_AbsoluteEpisodeNumbers finalRes fileRes dirRes :
  combineResults finalRes fileRes dirRes "AbsoluteEpisodeNumbers"
  = Some (set_AbsoluteEpisodeNumbers
            (prefer emptySlice (AbsoluteEpisodeNumbers fileRes)
               (AbsoluteEpisodeNumbers dirRes)) finalRes, None).
Proof. combine. Qed.

Lemma combineResults_SeasonNumber finalRes fileRes dirRes :
  combineResults finalRes fileRes dirRes "SeasonNumber"
  = Some (set_SeasonNumber
            (prefer zeroInt (SeasonNumber fileRes) (SeasonNumber dirRes)) finalRes, None).
Proof. combine. Qed.

Lemma combineResults_EpisodeNumbers finalRes fileRes dirRes :
  combineResults finalRes fileRes dirRes "EpisodeNumbers"
  = Some (set_EpisodeNumbers
            (prefer emptySlice (EpisodeNumbers fileRes) (EpisodeNumbers dirRes))
            finalRes, None).
Proof. combine. Qed.

Lemma combineResults_SeriesName finalRes fileRes dirRes :
  combineResults finalRes fileRes dirRes "SeriesName"
  = Some (set_SeriesName
            (prefer emptyString (SeriesName fileRes) (SeriesName dirRes)) finalRes, None).
Proof. combine. Qed.

Lemma combineResults_ExtraInfo finalRes fileRes dirRes :
  combineResults finalRes fileRes dirRes "ExtraInfo"
  = Some (set_ExtraInfo
            (prefer emptyString (ExtraInfo fileRes) (ExtraInfo dirRes)) finalRes, None).
Proof. combine. Qed.

Lemma combineResults_ReleaseGroup finalRes fileRes dirRes :
  combineResults finalRes fileRes dirRes "ReleaseGroup"
  = Some (set_ReleaseGroup
            (prefer emptyString (ReleaseGroup fileRes) (ReleaseGroup dirRes))
            finalRes, None).
Proof. combine. Qed.

Lemma combineResults_Version finalRes fileRes dirRes :
  combineResults finalRes fileRes dirRes "Version"
  = Some (set_Version
            (prefer emptyString (Version fileRes) (Version dirRes)) finalRes, None).
Proof. combine. Qed.

(** A name that is not a field of [ParseResult] is answered by an error
    and leaves the record as it is. *)
Lemma combineResults_invalid finalRes fileRes dirRes :
  combineResults finalRes fileRes dirRes "Episode"
  = Some (finalRes, Some "Invalid field name given: Episode").
Proof. reflexivity. Qed.

(** The record after the eight calls of [ParseFile]; in the last four the
    directory result is the first source. *)
Lemma combineAll_eq finalRes fileNameResult dirNameResult :
  combineAll finalRes fileNameResult dirNameResult
  = Some {|
      OriginalName := OriginalName finalRes;
      SeriesName :=
        prefer emptyString (SeriesName dirNameResult) (SeriesName fileNameResult);
      SeasonNumber :=
        prefer zeroInt (SeasonNumber fileNameResult) (SeasonNumber dirNameResult);
      EpisodeNumbers :=
        prefer emptySlice (EpisodeNumbers fileNameResult) (EpisodeNumbers dirNameResult);
      ExtraInfo :=
        prefer emptyString (ExtraInfo dirNameResult) (ExtraInfo fileNameResult);
      ReleaseGroup :=
        prefer emptyString (ReleaseGroup dirNameResult) (ReleaseGroup fileNameResult);
      AirDate := AirDate fileNameResult;
      AbsoluteEpisodeNumbers :=
        prefer emptySlice (AbsoluteEpisodeNumbers fileNameResult)
          (AbsoluteEpisodeNumbers dirNameResult);
      Score := Score finalRes;
      Quality_ := Quality_ finalRes;
      Version := prefer emptyString (Version dirNameResult) (Version fileNameResult);
      RegexUsed := RegexUsed finalRes |}.
Proof.
  unfold combineAll.
  rewrite combineResults_AirDate. cbn [mbind option_bind].
  rewrite combineResults_AbsoluteEpisodeNumbers. cbn [mbind option_bind].
  rewrite combineResults_SeasonNumber. cbn [mbind option_bind].
  rewrite combineResults_EpisodeNumbers. cbn [mbind option_bind].
  rewrite combineResults_SeriesName. cbn [mbind option_bind].
  rewrite combineResults_ExtraInfo. cbn [mbind option_bind].
  rewrite combineResults_ReleaseGroup. cbn [mbind option_bind].
  rewrite combineResults_Version. reflexivity.
Qed.

End MergeFacts.

(** ** [parseString], [Parse] and [ParseFile] *)

Section ParserFacts.

Context {Time Quality : Type}.
Variable zeroTime : Time.
Variable time_Date : Z -> Z -> Z -> Time.
Variable TranslateYMD : string -> list string -> Z * Z * Z.
Variable zeroQuality : Quality.
Variable QualityFromName : string -> bool -> Quality.
Variable isEmptyQuality : Quality -> bool.

Local Abbreviation Result := (ParseResult (Time := Time) (Quality := Quality)).

Variable sort_Sort : (Result -> Result -> bool) -> list Result -> list Result.

(** The contract of [sort.Sort]: the data are permuted, and for a [Less]
    that is a strict weak order no element is [Less] than one before
    it. *)
Hypothesis sort_Sort_perm : forall less l, sort_Sort less l ≡ₚ l.
Hypothesis sort_Sort_sorted : forall less l,
  (forall a b, less a b = true -> less b a = false) ->
  (forall a b c, less a b = false -> less b c = false -> less a c = false) ->
  StronglySorted (fun a b => less b a = false) (sort_Sort less l).

Implicit Types (pr best : Result) (np : NameParser).

Local Abbreviation parseRule := (parseRule zeroTime time_Date TranslateYMD zeroQuality).
Local Abbreviation parseRules := (parseRules zeroTime time_Date TranslateYMD zeroQuality).
Local Abbreviation parseString :=
  (parseString zeroTime time_Date TranslateYMD zeroQuality sort_Sort).
Local Abbreviation Parse :=
  (Parse zeroTime time_Date TranslateYMD zeroQuality QualityFromName sort_Sort).
Local Abbreviation ParseFile :=
  (ParseFile zeroTime time_Date TranslateYMD zeroQuality QualityFromName sort_Sort
     isEmptyQuality).
Local Abbreviation emptyResult := (emptyResult zeroTime zeroQuality).

(** The candidates are the results of the rules, each at its index. *)
Lemma elem_of_parseRules name k rs pr :
  pr ∈ parseRules name k rs <->
  exists j r, rs !! j = Some r /\ parseRule name (k + j) r = Some pr.
Proof.
  revert k. induction rs as [|r rs IH]; intros k; simpl.
  - split; [by intros ?%elem_of_nil|]. by intros (j & r & ? & _).
  - assert (pr ∈ parseRules name (S k) rs <->
            exists j r', (r :: rs) !! S j = Some r'
                         /\ parseRule name (k + S j) r' = Some pr) as IH'.
    { rewrite IH. by setoid_rewrite Nat.add_succ_r. }
    destruct (parseRule name k r) as [p|] eqn:Hp.
    + rewrite elem_of_cons, IH'. split.
      * intros [->|(j & r' & Hj & Hr)].
        -- exists 0%nat, r. by rewrite Nat.add_0_r.
        -- by exists (S j), r'.
      * intros ([|j] & r' & Hj & Hr).
        -- left. rewrite Nat.add_0_r in Hr. simpl in Hj. congruence.
        -- right. by exists j, r'.
    + rewrite IH'. split.
      * intros (j & r' & Hj & Hr). by exists (S j), r'.
      * intros ([|j] & r' & Hj & Hr).
        -- rewrite Nat.add_0_r in Hr. simpl in Hj. congruence.
        -- by exists j, r'.
Qed.

Lemma parseRules_nil name rs :
  parseRules name 0 rs = [] <->
  forall i r, rs !! i = Some r -> parseRule name i r = None.
Proof.
  split.
  - intros Hnil i r Hi. destruct (parseRule name i r) as [pr|] eqn:Hpr; [|done].
    assert (pr ∈ parseRules name 0 rs) as Hin
      by (apply elem_of_parseRules; by exists i, r).
    rewrite Hnil in Hin. by apply elem_of_nil in Hin.
  - intros Hnone. destruct (parseRules name 0 rs) as [|pr l] eqn:Hl; [done|].
    assert (pr ∈ parseRules name 0 rs) as Hin by (rewrite Hl; left).
    apply elem_of_parseRules in Hin as (j & r & Hj & Hr).
    cbn [Nat.add] in Hr. rewrite (Hnone _ _ Hj) in Hr. done.
Qed.

(** [Reverse(byScore)] is a strict weak order. *)
Lemma Reverse_byScore_asym (a b : Result) :
  Reverse_Less byScore_Less a b = true -> Reverse_Less byScore_Less b a = false.
Proof. unfold Reverse_Less, byScore_Less. rewrite Z.ltb_lt, Z.ltb_ge. lia. Qed.

Lemma Reverse_byScore_negtrans (a b c : Result) :
  Reverse_Less byScore_Less a b = false -> Reverse_Less byScore_Less b c = false ->
  Reverse_Less byScore_Less a c = false.
Proof. unfold Reverse_Less, byScore_Less. rewrite !Z.ltb_ge. lia. Qed.

(** What [parseString] returns, in terms of the candidates. *)
Lemma parseString_Some np name best rest :
  sort_Sort (Reverse_Less byScore_Less) (parseRules name 0 (Regexes np)) = best :: rest ->
  parseString np name = (best, None)
  /\ best ∈ parseRules name 0 (Regexes np)
  /\ forall pr, pr ∈ parseRules name 0 (Regexes np) -> Score pr <= Score best.
Proof.
  intros Hs. unfold parseString. rewrite Hs. split; [done|].
  pose proof (sort_Sort_perm (Reverse_Less byScore_Less)
                (parseRules name 0 (Regexes np))) as Hperm.
  pose proof (sort_Sort_sorted (Reverse_Less byScore_Less)
                (parseRules name 0 (Regexes np))
                Reverse_byScore_asym Reverse_byScore_negtrans) as Hsorted.
  rewrite Hs in Hperm, Hsorted. split.
  - rewrite <- Hperm. left.
  - intros pr Hin. rewrite <- Hperm in Hin.
    apply StronglySorted_inv in Hsorted as [_ Hall].
    apply elem_of_cons in Hin as [->|Hin]; [lia|].
    rewrite Forall_forall in Hall. apply Hall in Hin.
    unfold Reverse_Less, byScore_Less in Hin. apply Z.ltb_ge in Hin. done.
Qed.

Lemma parseString_nil np name :
  parseRules name 0 (Regexes np) = [] ->
  parseString np name = (emptyResult, Some ("Couldn't parse string " +:+ name)).
Proof.
  intros Hnil. unfold parseString.
  pose proof (sort_Sort_perm (Reverse_Less byScore_Less)
                (parseRules name 0 (Regexes np))) as Hperm.
  rewrite Hnil in Hperm. apply Permutation_nil_r in Hperm. by rewrite Hnil, Hperm.
Qed.

Lemma parseString_cases np name :
  (parseRules name 0 (Regexes np) = []
   /\ parseString np name = (emptyResult, Some ("Couldn't parse string " +:+ name)))
  \/ (exists best,
        parseString np name = (best, None)
        /\ best ∈ parseRules name 0 (Regexes np)
        /\ forall pr, pr ∈ parseRules name 0 (Regexes np) -> Score pr <= Score best).
Proof.
  destruct (sort_Sort (Reverse_Less byScore_Less) (parseRules name 0 (Regexes np)))
    as [|best rest] eqn:Hs.
  - left. pose proof (sort_Sort_perm (Reverse_Less byScore_Less)
                        (parseRules name 0 (Regexes np))) as Hperm.
    rewrite Hs in Hperm. symmetry in Hperm. apply Permutation_nil_r in Hperm.
    split; [done|]. by apply parseString_nil.
  - right. exists best. by eapply parseString_Some.
Qed.

(** C7.  The result of [parseString] is a candidate of maximal score.
    When the rules at [i < j] both give a candidate and earn the same
    bonus, the later candidate scores strictly less and is not returned;
    when no other rule gives a candidate the earlier one is returned,
    with the name of its rule. *)
Theorem parseString_best np name :
  (forall best, parseString np name = (best, None) ->
     (exists k rk, Regexes np !! k = Some rk /\ parseRule name k rk = Some best)
     /\ (forall k rk pk, Regexes np !! k = Some rk -> parseRule name k rk = Some pk ->
           Score pk <= Score best))
  /\ (forall i j ri rj mi mj pi pj,
        (i < j)%nat ->
        Regexes np !! i = Some ri -> Regexes np !! j = Some rj ->
        regexNamedMatch (Regex ri) name = Some mi ->
        regexNamedMatch (Regex rj) name = Some mj ->
        parseRule name i ri = Some pi -> parseRule name j rj = Some pj ->
        bonusPoints mi = bonusPoints mj ->
        Score pj < Score pi
        /\ exists best,
             parseString np name = (best, None)
             /\ Score pj < Score best
             /\ ((forall k rk, k <> i -> k <> j -> Regexes np !! k = Some rk ->
                    parseRule name k rk = None) ->
                 best = pi /\ RegexUsed best = Name ri)).
Proof.
  assert (forall k rk pk, Regexes np !! k = Some rk -> parseRule name k rk = Some pk ->
            pk ∈ parseRules name 0 (Regexes np)) as Hcand.
  { intros k rk pk Hk Hpk. apply elem_of_parseRules. by exists k, rk. }
  split.
  - intros best Hbest.
    destruct (parseString_cases np name) as [[_ Hps]|(b & Hps & Hin & Hmax)];
      rewrite Hps in Hbest; [done|]. injection Hbest as ->.
    split.
    + apply elem_of_parseRules in Hin as (k & rk & Hk & Hpk). by exists k, rk.
    + intros k rk pk Hk Hpk. apply Hmax. by eapply Hcand.
  - intros i j ri rj mi mj pi pj Hij Hi Hj Hmi Hmj Hpi Hpj Hbonus.
    destruct (parseRule_fields _ _ _ _ _ _ _ _ _ Hpi Hmi)
      as (? & ? & ? & ? & _ & _ & _ & _ & HSi & _).
    destruct (parseRule_fields _ _ _ _ _ _ _ _ _ Hpj Hmj)
      as (? & ? & ? & ? & _ & _ & _ & _ & HSj & _).
    assert (Score pj < Score pi) as Hlt by lia. split; [done|].
    destruct (parseString_cases np name) as [[Hnil _]|(best & Hps & Hin & Hmax)].
    { pose proof (Hcand _ _ _ Hi Hpi) as Hin. rewrite Hnil in Hin.
      by apply elem_of_nil in Hin. }
    exists best. split; [done|].
    pose proof (Hmax _ (Hcand _ _ _ Hi Hpi)) as Hle. split; [lia|].
    intros Honly. apply elem_of_parseRules in Hin as (k & rk & Hk & Hpk).
    cbn [Nat.add] in Hpk.
    destruct (decide (k = i)) as [->|Hki].
    + assert (rk = ri) as -> by congruence. assert (best = pi) as -> by congruence.
      split; [done|]. by eapply parseRule_names.
    + destruct (decide (k = j)) as [->|Hkj].
      * assert (rk = rj) as -> by congruence. assert (best = pj) as -> by congruence.
        lia.
      * rewrite (Honly _ _ Hki Hkj Hk) in Hpk. done.
Qed.

(** The error of [parseString] tells that the candidate list is empty. *)
Lemma parseString_error_iff np name :
  (parseString np name).2 <> None <-> parseRules name 0 (Regexes np) = [].
Proof.
  pose proof (sort_Sort_perm (Reverse_Less byScore_Less)
                (parseRules name 0 (Regexes np))) as Hperm.
  destruct (sort_Sort (Reverse_Less byScore_Less) (parseRules name 0 (Regexes np)))
    as [|best rest] eqn:Hs.
  - symmetry in Hperm. apply Permutation_nil_r in Hperm.
    by rewrite (parseString_nil np name Hperm).
  - assert (parseString np name = (best, None)) as Hps
      by (unfold parseString; by rewrite Hs).
    rewrite Hps. simpl. split; [done|].
    intros Hnil. rewrite Hnil in Hperm. by apply Permutation_nil_r in Hperm.
Qed.

(** C8.  [parseString] returns an error exactly when no rule gives a
    candidate; the result that comes with the error is the record whose
    fields are all zero, and [Parse] returns it with the quality set. *)
Theorem parseString_NoMatch np name :
  ((parseString np name).2 <> None <->
   forall i r, Regexes np !! i = Some r -> parseRule name i r = None)
  /\ ((parseString np name).2 <> None ->
      parseString np name
      = ({| OriginalName := ""; SeriesName := ""; SeasonNumber := 0;
            EpisodeNumbers := []; ExtraInfo := ""; ReleaseGroup := "";
            AirDate := zeroTime; AbsoluteEpisodeNumbers := []; Score := 0;
            Quality_ := zeroQuality; Version := ""; RegexUsed := "" |},
         Some ("Couldn't parse string " +:+ name))
      /\ Parse np name = set_Quality (QualityFromName name false) emptyResult).
Proof.
  rewrite <- parseRules_nil. split; [apply parseString_error_iff|].
  intros Hnil%parseString_error_iff. pose proof (parseString_nil np name Hnil) as Hps.
  split; [done|]. unfold Parse. by rewrite Hps.
Qed.

(** The three parses of [ParseFile] and the record it returns. *)
Lemma ParseFile_eq np name :
  let fileNameResult := (parseString np (stripExtension (filepath.Split name).2)).1 in
  let dirNameResult := (parseString np (filepath.Base (filepath.Split name).1)).1 in
  let finalRes := (parseString np name).1 in
  ParseFile np name
  = Some {|
      OriginalName := OriginalName finalRes;
      SeriesName :=
        prefer emptyString (SeriesName dirNameResult) (SeriesName fileNameResult);
      SeasonNumber :=
        prefer zeroInt (SeasonNumber fileNameResult) (SeasonNumber dirNameResult);
      EpisodeNumbers :=
        prefer emptySlice (EpisodeNumbers fileNameResult) (EpisodeNumbers dirNameResult);
      ExtraInfo :=
        prefer emptyString (ExtraInfo dirNameResult) (ExtraInfo fileNameResult);
      ReleaseGroup :=
        prefer emptyString (ReleaseGroup dirNameResult) (ReleaseGroup fileNameResult);
      AirDate := AirDate fileNameResult;
      AbsoluteEpisodeNumbers :=
        prefer emptySlice (AbsoluteEpisodeNumbers fileNameResult)
          (AbsoluteEpisodeNumbers dirNameResult);
      Score := Score finalRes;
      Quality_ := QualityFromName name false;
      Version := prefer emptyString (Version dirNameResult) (Version fileNameResult);
      RegexUsed := RegexUsed finalRes |}.
Proof.
  unfold ParseFile.
  destruct (filepath.Split name) as [dirName fileName]. cbn [fst snd].
  destruct (parseString np (stripExtension fileName)) as [f ef].
  destruct (parseString np (filepath.Base dirName)) as [d ed].
  destruct (parseString np name) as [r er].
  cbn [fst snd]. rewrite combineAll_eq. reflexivity.
Qed.

(** C9.  [ParseFile] returns a result for every path: no call of
    [combineResults] it makes fails or panics.  A single-string parse that
    fails stands in the merge as the record whose fields are all zero.
    Each merged field of the result is the value of that field in the
    file-name or in the directory result, the unmerged ones come from the
    full-path result, and when all three parses fail every field but the
    quality is zero. *)
Theorem ParseFile_total np name :
  let fileNameResult := (parseString np (stripExtension (filepath.Split name).2)).1 in
  let dirNameResult := (parseString np (filepath.Base (filepath.Split name).1)).1 in
  let finalRes := (parseString np name).1 in
  exists res,
    ParseFile np name = Some res
    /\ (forall (a b c : Result) field, field ∈ mergedFields ->
          exists r, combineResults isEmptyQuality a b c field = Some (r, None))
    /\ (forall s, (parseString np s).2 <> None -> (parseString np s).1 = emptyResult)
    /\ (OriginalName res = OriginalName finalRes /\ RegexUsed res = RegexUsed finalRes
        /\ Score res = Score finalRes /\ Quality_ res = QualityFromName name false)
    /\ (AirDate res = AirDate fileNameResult \/ AirDate res = AirDate dirNameResult)
    /\ (AbsoluteEpisodeNumbers res = AbsoluteEpisodeNumbers fileNameResult
        \/ AbsoluteEpisodeNumbers res = AbsoluteEpisodeNumbers dirNameResult)
    /\ (SeasonNumber res = SeasonNumber fileNameResult
        \/ SeasonNumber res = SeasonNumber dirNameResult)
    /\ (EpisodeNumbers res = EpisodeNumbers fileNameResult
        \/ EpisodeNumbers res = EpisodeNumbers dirNameResult)
    /\ (SeriesName res = SeriesName fileNameResult
        \/ SeriesName res = SeriesName dirNameResult)
    /\ (ExtraInfo res = ExtraInfo fileNameResult \/ ExtraInfo res = ExtraInfo dirNameResult)
    /\ (ReleaseGroup res = ReleaseGroup fileNameResult
        \/ ReleaseGroup res = ReleaseGroup dirNameResult)
    /\ (Version res = Version fileNameResult \/ Version res = Version dirNameResult)
    /\ ((parseString np name).2 <> None ->
        (parseString np (stripExtension (filepath.Split name).2)).2 <> None ->
        (parseString np (filepath.Base (filepath.Split name).1)).2 <> None ->
        res = {| OriginalName := ""; SeriesName := ""; SeasonNumber := 0;
                 EpisodeNumbers := []; ExtraInfo := ""; ReleaseGroup := "";
                 AirDate := zeroTime; AbsoluteEpisodeNumbers := []; Score := 0;
                 Quality_ := QualityFromName name false; Version := "";
                 RegexUsed := "" |}).
Proof.
  intros fileNameResult dirNameResult finalRes.
  assert (forall s, (parseString np s).2 <> None -> (parseString np s).1 = emptyResult)
    as Hslot.
  { intros s Hnil%parseString_error_iff. by rewrite (parseString_nil np s Hnil). }
  eexists. split; [apply ParseFile_eq|]. split; [|split; [done|]].
  { intros a b c field Hf. unfold mergedFields in Hf.
    repeat (apply elem_of_cons in Hf as [->|Hf]); [..|by apply elem_of_nil in Hf].
    - rewrite combineResults_AirDate. eauto.
    - rewrite combineResults_AbsoluteEpisodeNumbers. eauto.
    - rewrite combineResults_SeasonNumber. eauto.
    - rewrite combineResults_EpisodeNumbers. eauto.
    - rewrite combineResults_SeriesName. eauto.
    - rewrite combineResults_ExtraInfo. eauto.
    - rewrite combineResults_ReleaseGroup. eauto.
    - rewrite combineResults_Version. eauto. }
  cbn [OriginalName RegexUsed Score Quality_ AirDate AbsoluteEpisodeNumbers
         SeasonNumber EpisodeNumbers SeriesName ExtraInfo ReleaseGroup Version].
  unfold prefer. repeat (split; [by (repeat case_match; auto)|]).
  intros H1 H2 H3. rewrite (Hslot _ H1), (Hslot _ H2), (Hslot _ H3). reflexivity.
Qed.

(** C1, as the code has it.  The merge never looks at the seeded
    full-path value: when the preferred and the fallback source are both
    empty on a field, that field of the result is empty, whatever the
    full-path parse had found. *)
Theorem ParseFile_seed_overwritten np name res :
  let fileNameResult := (parseString np (stripExtension (filepath.Split name).2)).1 in
  let dirNameResult := (parseString np (filepath.Base (filepath.Split name).1)).1 in
  ParseFile np name = Some res ->
  (AirDate fileNameResult = zeroTime -> AirDate dirNameResult = zeroTime ->
   AirDate res = zeroTime)
  /\ (AbsoluteEpisodeNumbers fileNameResult = [] ->
      AbsoluteEpisodeNumbers dirNameResult = [] -> AbsoluteEpisodeNumbers res = [])
  /\ (SeasonNumber fileNameResult = 0 -> SeasonNumber dirNameResult = 0 ->
      SeasonNumber res = 0)
  /\ (EpisodeNumbers fileNameResult = [] -> EpisodeNumbers dirNameResult = [] ->
      EpisodeNumbers res = [])
  /\ (SeriesName dirNameResult = "" -> SeriesName fileNameResult = "" ->
      SeriesName res = "")
  /\ (ExtraInfo dirNameResult = "" -> ExtraInfo fileNameResult = "" -> ExtraInfo res = "")
  /\ (ReleaseGroup dirNameResult = "" -> ReleaseGroup fileNameResult = "" ->
      ReleaseGroup res = "")
  /\ (Version dirNameResult = "" -> Version fileNameResult = "" -> Version res = "").
Proof.
  intros fileNameResult dirNameResult. rewrite ParseFile_eq.
  fold fileNameResult dirNameResult. clearbody fileNameResult dirNameResult.
  intros [= <-].
  cbn [AirDate AbsoluteEpisodeNumbers SeasonNumber EpisodeNumbers SeriesName
         ExtraInfo ReleaseGroup Version].
  repeat split; intros Ha Hb; rewrite ?Ha, ?Hb; reflexivity.
Qed.

(** X22.  The precedence the merge follows on the seven fields whose
    emptiness [isEmptyValue] can see; the air date is always the one of the
    file name. *)
Lemma ParseFile_precedence np name res :
  let fileNameResult := (parseString np (stripExtension (filepath.Split name).2)).1 in
  let dirNameResult := (parseString np (filepath.Base (filepath.Split name).1)).1 in
  ParseFile np name = Some res ->
  AbsoluteEpisodeNumbers res
  = (if decide (AbsoluteEpisodeNumbers fileNameResult = [])
     then AbsoluteEpisodeNumbers dirNameResult
     else AbsoluteEpisodeNumbers fileNameResult)
  /\ SeasonNumber res
     = (if decide (SeasonNumber fileNameResult = 0)
        then SeasonNumber dirNameResult else SeasonNumber fileNameResult)
  /\ EpisodeNumbers res
     = (if decide (EpisodeNumbers fileNameResult = [])
        then EpisodeNumbers dirNameResult else EpisodeNumbers fileNameResult)
  /\ SeriesName res
     = (if decide (SeriesName dirNameResult = "")
        then SeriesName fileNameResult else SeriesName dirNameResult)
  /\ ExtraInfo res
     = (if decide (ExtraInfo dirNameResult = "")
        then ExtraInfo fileNameResult else ExtraInfo dirNameResult)
  /\ ReleaseGroup res
     = (if decide (ReleaseGroup dirNameResult = "")
        then ReleaseGroup fileNameResult else ReleaseGroup dirNameResult)
  /\ Version res
     = (if decide (Version dirNameResult = "")
        then Version fileNameResult else Version dirNameResult)
  /\ AirDate res = AirDate fileNameResult.
Proof.
  intros fileNameResult dirNameResult. rewrite ParseFile_eq.
  fold fileNameResult dirNameResult. clearbody fileNameResult dirNameResult.
  intros [= <-].
  cbn [AirDate AbsoluteEpisodeNumbers SeasonNumber EpisodeNumbers SeriesName
         ExtraInfo ReleaseGroup Version].
  unfold prefer.
  repeat split; case_decide as H.
  all: try (apply emptySlice_spec in H); try (apply emptyString_spec in H);
    try (apply zeroInt_spec in H); try (by rewrite H).
  all: case_match eqn:He; [|done].
  all: try (apply emptySlice_spec in He); try (apply emptyString_spec in He);
    try (apply zeroInt_spec in He); done.
Qed.

End ParserFacts.

(** * The parser at work *)

(** ** The sample sort meets the contract of [sort.Sort] *)

Lemma Sample_insert_perm {A} (less : A -> A -> bool) (x : A) (l : list A) :
  Sample.insert less x l ≡ₚ x :: l.
Proof.
  induction l as [|y l IH]; simpl; [done|].
  destruct (less y x); [|done]. rewrite IH. apply Permutation_swap.
Qed.

Lemma Sample_sort_Sort_perm {A} (less : A -> A -> bool) (l : list A) :
  Sample.sort_Sort less l ≡ₚ l.
Proof.
  induction l as [|x l IH]; simpl; [done|]. by rewrite Sample_insert_perm, IH.
Qed.

Lemma Sample_insert_sorted {A} (less : A -> A -> bool) (x : A) (l : list A) :
  (forall a b, less a b = true -> less b a = false) ->
  (forall a b c, less a b = false -> less b c = false -> less a c = false) ->
  StronglySorted (fun a b => less b a = false) l ->
  StronglySorted (fun a b => less b a = false) (Sample.insert less x l).
Proof.
  intros Hasym Htrans. induction l as [|y l IH]; simpl; intros Hs.
  - by repeat constructor.
  - apply StronglySorted_inv in Hs as [Hl Hy].
    destruct (less y x) eqn:Hyx.
    + constructor; [by apply IH|].
      rewrite Sample_insert_perm. constructor; [by apply Hasym|done].
    + constructor; [by constructor|]. constructor; [done|].
      eapply Forall_impl; [exact Hy|]. intros z Hz. by apply (Htrans z y x).
Qed.

Lemma Sample_sort_Sort_sorted {A} (less : A -> A -> bool) (l : list A) :
  (forall a b, less a b = true -> less b a = false) ->
  (forall a b c, less a b = false -> less b c = false -> less a c = false) ->
  StronglySorted (fun a b => less b a = false) (Sample.sort_Sort less l).
Proof.
  intros Hasym Htrans. induction l as [|x l IH]; simpl; [constructor|].
  by apply Sample_insert_sorted.
Qed.

(** ** Rules on concrete names *)

(** The pattern of [Sample.scored] captures a series name, a season, an
    episode and a release group: at index 2 the candidate scores
    [-2 + 3]. *)
Lemma parseRule_Score_witness :
  exists pr matches,
    Sample.parseRule "Show.S01E02-GRP" 2 Sample.scored = Some pr
    /\ regexNamedMatch (Regex Sample.scored) "Show.S01E02-GRP" = Some matches
    /\ Score pr = - 2 + bonus "series_name" matches + bonus "series_num" matches
                  + bonus "season_num" matches + bonus "air_date" matches
                  + bonus "release_group" matches
    /\ Score pr = 1 /\ SeasonNumber pr = 1 /\ EpisodeNumbers pr = [2].
Proof.
  eexists _, _. split; [vm_compute; reflexivity|]. split; [reflexivity|].
  split; [|by vm_compute].
  refine (proj1 (parseRule_Score Sample.zeroTime Sample.time_Date Sample.TranslateYMD
                   Sample.UNKNOWN "Show.S01E02-GRP" 2 Sample.scored _ _ _ _)).
  - vm_compute; reflexivity.
  - reflexivity.
Defined.

(** The pattern of [Sample.versioned] captures the version [v2]; the
    candidate has none. *)
Lemma parseRule_Version_witness :
  NamedString (Regex Sample.versioned "Show - 01v2") "version" = Some "v2"
  /\ exists pr,
       Sample.parseRule "Show - 01v2" 0 Sample.versioned = Some pr
       /\ AbsoluteEpisodeNumbers pr = [1]
       /\ Version pr = "".
Proof.
  split; [reflexivity|]. eexists. split; [vm_compute; reflexivity|].
  split; [reflexivity|].
  apply (parseRule_Version Sample.zeroTime Sample.time_Date Sample.TranslateYMD
           Sample.UNKNOWN "Show - 01v2" 0 Sample.versioned).
  vm_compute; reflexivity.
Defined.

(** The pattern of [Sample.roman] captures the episode [5] and the secondary
    episode [VI]: the rule gives a candidate, without episode numbers. *)
Lemma parseRule_extra_ep_num_failure_witness :
  exists pr matches,
    Sample.parseRule "Show.5-VI" 0 Sample.roman = Some pr
    /\ regexNamedMatch (Regex Sample.roman) "Show.5-VI" = Some matches
    /\ matches !! "ep_num" = Some "5"
    /\ matches !! "extra_ep_num" = Some "VI"
    /\ strconv.ParseInt "VI" = (0, Some strconv.ErrSyntax)
    /\ strconv.ParseInt (strings.TrimLeft "5" "0") = (5, None)
    /\ EpisodeNumbers pr = [].
Proof.
  eexists _, _. split; [vm_compute; reflexivity|]. split; [reflexivity|].
  split; [by vm_compute|]. split; [by vm_compute|]. split; [reflexivity|].
  split; [reflexivity|].
  refine (proj2 (parseRule_extra_ep_num_failure Sample.zeroTime Sample.time_Date
                   Sample.TranslateYMD Sample.UNKNOWN "Show.5-VI" 0 Sample.roman
                   _ _ "5" "VI" _ _ _ _ _)).
  - vm_compute; reflexivity.
  - reflexivity.
  - by vm_compute.
  - by vm_compute.
  - by vm_compute.
Defined.

(** The pattern of [Sample.specials] captures the season [00]: no
    candidate. *)
Lemma parseRule_zero_capture_witness :
  exists matches,
    regexNamedMatch (Regex Sample.specials) "Show.S00E03" = Some matches
    /\ matches !! "season_num" = Some "00"
    /\ allZeros "00" = true
    /\ Sample.parseRule "Show.S00E03" 0 Sample.specials = None.
Proof.
  eexists. split; [reflexivity|]. split; [by vm_compute|]. split; [reflexivity|].
  refine (proj2 (proj2 (parseRule_zero_capture Sample.zeroTime Sample.time_Date
                          Sample.TranslateYMD Sample.UNKNOWN "Show.S00E03" 0
                          Sample.specials _ "00" _ _ _))).
  - reflexivity.
  - left. by vm_compute.
  - reflexivity.
Defined.

(** ** [parseString] and [ParseFile] on concrete catalogs *)

(** Both rules of [Sample.twins] match [Show.S01] with one bonus point; the
    first one wins. *)
Lemma parseString_best_witness :
  exists pi pj best,
    Sample.parseRule "Show.S01" 0 (Sample.rule "first" "Show.S01" [("series_name", "Show")])
    = Some pi
    /\ Sample.parseRule "Show.S01" 1
         (Sample.rule "second" "Show.S01" [("release_group", "GRP")]) = Some pj
    /\ Score pi = 0 + 1 /\ Score pj = -1 + 1
    /\ Sample.parseString Sample.twins "Show.S01" = (best, None)
    /\ best = pi /\ RegexUsed best = "first".
Proof.
  destruct (proj2 (parseString_best Sample.zeroTime Sample.time_Date Sample.TranslateYMD
                     Sample.UNKNOWN Sample.sort_Sort
                     (@Sample_sort_Sort_perm _) (@Sample_sort_Sort_sorted _)
                     Sample.twins "Show.S01")
              0%nat 1%nat
              (Sample.rule "first" "Show.S01" [("series_name", "Show")])
              (Sample.rule "second" "Show.S01" [("release_group", "GRP")])
              _ _
              (set_Score 1 (set_SeriesName "Show"
                 (initialResult Sample.zeroTime Sample.UNKNOWN "Show.S01" 0
                    (Sample.rule "first" "Show.S01" [("series_name", "Show")]))))
              (set_Score 0 (set_ReleaseGroup "GRP"
                 (initialResult Sample.zeroTime Sample.UNKNOWN "Show.S01" 1
                    (Sample.rule "second" "Show.S01" [("release_group", "GRP")]))))
              ltac:(lia) eq_refl eq_refl eq_refl eq_refl
              ltac:(vm_compute; reflexivity) ltac:(vm_compute; reflexivity)
              ltac:(vm_compute; reflexivity))
    as (Hlt & best & Hps & _ & Honly).
  eexists _, _, best.
  split; [vm_compute; reflexivity|]. split; [vm_compute; reflexivity|].
  split; [reflexivity|]. split; [reflexivity|]. split; [exact Hps|].
  apply Honly. intros [|[|k]] rk H0 H1 Hk; try done.
Defined.

(** No rule of [Sample.catalog] matches [nothing]. *)
Lemma parseString_NoMatch_witness :
  (forall i r, Regexes Sample.catalog !! i = Some r -> Sample.parseRule "nothing" i r = None)
  /\ Sample.parseString Sample.catalog "nothing"
     = (emptyResult Sample.zeroTime Sample.UNKNOWN, Some "Couldn't parse string nothing")
  /\ Sample.Parse Sample.catalog "nothing" = emptyResult Sample.zeroTime Sample.UNKNOWN.
Proof.
  pose proof (parseString_NoMatch Sample.zeroTime Sample.time_Date Sample.TranslateYMD
                Sample.UNKNOWN Sample.QualityFromName Sample.sort_Sort
                (@Sample_sort_Sort_perm _) Sample.catalog "nothing") as [Hiff Hempty].
  assert ((Sample.parseString Sample.catalog "nothing").2 <> None) as Herr
    by (vm_compute; discriminate).
  split; [exact (proj1 Hiff Herr)|]. exact (Hempty Herr).
Defined.

(** None of [x/y.mkv], [y] and [x] matches a rule of [Sample.catalog]. *)
Lemma ParseFile_total_witness :
  filepath.Split "x/y.mkv" = ("x/", "y.mkv")
  /\ stripExtension "y.mkv" = "y" /\ filepath.Base "x/" = "x"
  /\ exists res,
       Sample.ParseFile Sample.catalog "x/y.mkv" = Some res
       /\ res = set_Quality (Sample.QualityFromName "x/y.mkv" false)
                  (emptyResult Sample.zeroTime Sample.UNKNOWN).
Proof.
  repeat (split; [reflexivity|]).
  destruct (ParseFile_total Sample.zeroTime Sample.time_Date Sample.TranslateYMD
              Sample.UNKNOWN Sample.QualityFromName Sample.isEmptyQuality
              Sample.sort_Sort (@Sample_sort_Sort_perm _) Sample.catalog "x/y.mkv")
    as (res & Hres & _ & _ & _ & _ & _ & _ & _ & _ & _ & _ & _ & Hall).
  exists res. split; [exact Hres|].
  apply Hall; vm_compute; discriminate.
Defined.

(** The full path [dir/Show.mkv] matches a rule that captures the series
    name; the file name [Show] and the directory [dir] match none. *)
Lemma ParseFile_seed_overwritten_witness :
  exists res,
    Sample.ParseFile Sample.catalog "dir/Show.mkv" = Some res
    /\ SeriesName (Sample.parseString Sample.catalog "dir").1 = ""
    /\ SeriesName (Sample.parseString Sample.catalog "Show").1 = ""
    /\ SeriesName res = "".
Proof.
  eexists. split; [vm_compute; reflexivity|].
  split; [reflexivity|]. split; [reflexivity|].
  refine (proj1 (proj2 (proj2 (proj2 (proj2
            (ParseFile_seed_overwritten Sample.zeroTime Sample.time_Date
               Sample.TranslateYMD Sample.UNKNOWN Sample.QualityFromName
               Sample.isEmptyQuality Sample.sort_Sort
               Sample.catalog "dir/Show.mkv" _ _))))) _ _).
  - vm_compute; reflexivity.
  - reflexivity.
  - reflexivity.
Defined.

(** C1, as stated, fails: the full-path parse of [dir/Show.mkv] has the
    series name [Show], the preferred source (the directory [dir]) and the
    fallback (the file name [Show]) have none, and the result has none. *)
Lemma ParseFile_keeps_seed_counterexample :
  filepath.Split "dir/Show.mkv" = ("dir/", "Show.mkv")
  /\ stripExtension "Show.mkv" = "Show" /\ filepath.Base "dir/" = "dir"
  /\ SeriesName (Sample.parseString Sample.catalog "dir/Show.mkv").1 = "Show"
  /\ SeriesName (Sample.parseString Sample.catalog "dir").1 = ""
  /\ SeriesName (Sample.parseString Sample.catalog "Show").1 = ""
  /\ exists res,
       Sample.ParseFile Sample.catalog "dir/Show.mkv" = Some res
       /\ SeriesName res = ""
       /\ SeriesName res <> SeriesName (Sample.parseString Sample.catalog "dir/Show.mkv").1.
Proof.
  repeat (split; [reflexivity|]).
  eexists. split; [vm_compute; reflexivity|]. split; [reflexivity|].
  vm_compute. discriminate.
Qed.

(** C5 on the air date: the directory [Show.2015.01.02] gives a date, the
    file name [episode] gives none, and the result has the zero date. *)
Theorem ParseFile_AirDate_evaluation :
  filepath.Split "Show.2015.01.02/episode.mkv" = ("Show.2015.01.02/", "episode.mkv")
  /\ stripExtension "episode.mkv" = "episode"
  /\ filepath.Base "Show.2015.01.02/" = "Show.2015.01.02"
  /\ AirDate (Sample.parseString Sample.catalog "episode").1 = Sample.zeroTime
  /\ AirDate (Sample.parseString Sample.catalog "Show.2015.01.02").1 = (2015, 1, 2)
  /\ exists res,
       Sample.ParseFile Sample.catalog "Show.2015.01.02/episode.mkv" = Some res
       /\ AirDate res = Sample.zeroTime
       /\ SeriesName res = "Show".
Proof.
  repeat (split; [reflexivity|]).
  eexists. split; [vm_compute; reflexivity|]. split; reflexivity.
Qed.

(** C3: the periods that come from [" - "] and from doubled spaces stay
    doubled, and of several trailing periods only one is cut. *)
Theorem SanitizeSceneName_evaluation :
  SanitizeSceneName "Show - Part 2" = "Show..Part.2"
  /\ SanitizeSceneName "a  b" = "a..b"
  /\ SanitizeSceneName "Show.." = "Show."
  /\ regexp.ReplaceAllDots false "Show..Part.2" "." = "Show.Part.2".
Proof. repeat split; reflexivity. Qed.

(** * Further facts *)

(** ** File names and extensions *)

Lemma append_empty_r (s : string) : s +:+ "" = s.
Proof. induction s as [|c s IH]; [done|]. exact (f_equal (String c) IH). Qed.

Lemma append_assoc (a b c : string) : (a +:+ b) +:+ c = a +:+ (b +:+ c).
Proof. induction a as [|x a IH]; [done|]. exact (f_equal (String x) IH). Qed.

Lemma substring_whole (s : string) : String.substring 0 (String.length s) s = s.
Proof. induction s as [|c s IH]; simpl; [done|]. by rewrite IH. Qed.

Lemma substring_split (s : string) (i : nat) :
  String.substring 0 i s +:+ String.substring i (String.length s - i) s = s.
Proof.
  revert i. induction s as [|c s IH]; intros [|i]; simpl; try done.
  - by rewrite substring_whole.
  - change (String c (String.substring 0 i s
                      +:+ String.substring i (String.length s - i) s) = String c s).
    by rewrite IH.
Qed.

Lemma substring_length (s : string) (i : nat) :
  (i <= String.length s)%nat ->
  String.length (String.substring i (String.length s - i) s) = (String.length s - i)%nat.
Proof.
  revert i. induction s as [|c s IH]; intros [|i]; simpl; try done; try lia.
  - intros _. by rewrite substring_whole.
  - intros Hi. apply IH. lia.
Qed.

Lemma get_substring (s : string) (i m k : nat) :
  String.get k (String.substring i m s)
  = if (k <? m)%nat then String.get (i + k) s else None.
Proof.
  revert i m k. induction s as [|c s IH]; intros [|i] [|m] [|k]; simpl; try done.
  all: try (rewrite IH; simpl; done).
  all: by destruct (S k <? S m)%nat.
Qed.

Lemma contains_get (c : ascii) (s : string) :
  strings.contains c s = true <-> exists j, String.get j s = Some c.
Proof.
  induction s as [|d s IH]; simpl.
  - split; [done|]. by intros [j Hj].
  - rewrite orb_true_iff, IH. split.
    + intros [->%Ascii.eqb_eq|[j Hj]]; [by exists 0%nat|by exists (S j)].
    + intros [[|j] Hj]; [left; apply Ascii.eqb_eq; simpl in Hj; congruence|].
      right. by exists j.
Qed.

(** The scan of [filepath.Ext]: nothing, or the suffix at a period that no
    period and no separator follows before the end of the scan. *)
Lemma extFrom_cases (path : string) (n : nat) :
  (n <= String.length path)%nat ->
  filepath.extFrom path n = ""
  \/ exists i, (i < n)%nat
       /\ String.get i path = Some "."%char
       /\ filepath.extFrom path n
          = String.substring i (String.length path - i) path
       /\ forall j c, (i < j < n)%nat -> String.get j path = Some c ->
            c <> "."%char /\ c <> "/"%char.
Proof.
  induction n as [|n IH]; simpl; intros Hn; [by left|].
  destruct (String.get n path) as [c|] eqn:Hc; [|by left].
  unfold filepath.IsPathSeparator.
  destruct (Ascii.eqb_spec c "/") as [->|Hsep]; [by left|].
  destruct (Ascii.eqb_spec c ".") as [->|Hdot].
  - right. exists n. repeat split; try done; try lia.
  - destruct IH as [Hnone|(i & Hi & Hget & Hext & Hafter)]; [lia|by left|].
    right. exists i. repeat split; try done; try lia.
    + destruct (decide (j = n)) as [->|Hj]; [congruence|]. eapply Hafter; [|done]. lia.
    + destruct (decide (j = n)) as [->|Hj]; [congruence|]. eapply Hafter; [|done]. lia.
Qed.

Lemma stem_and_extension (fname : string) :
  stripExtension fname +:+ filepath.Ext fname = fname
  /\ (filepath.Ext fname = ""
      \/ exists t, filepath.Ext fname = String "." t
           /\ strings.contains "." t = false /\ strings.contains "/" t = false).
Proof.
  unfold stripExtension, filepath.Ext, filepath.slice.
  destruct (extFrom_cases fname (String.length fname) (le_n _))
    as [Hnone|(i & Hi & Hget & Hext & Hafter)].
  - rewrite Hnone. simpl. rewrite !Nat.sub_0_r, substring_whole.
    split; [apply append_empty_r|by left].
  - rewrite Hext, substring_length by lia.
    replace (String.length fname - (String.length fname - i) - 0)%nat with i by lia.
    split; [apply substring_split|]. right.
    destruct (String.substring i (String.length fname - i) fname) as [|c t] eqn:Hs.
    { pose proof (get_substring fname i (String.length fname - i) 0) as Hg.
      rewrite Hs, Nat.add_0_r, Hget in Hg. simpl in Hg.
      destruct (String.length fname - i)%nat eqn:Hl; [lia|done]. }
    assert (forall k d, String.get k t = Some d -> d <> "."%char /\ d <> "/"%char) as Hall.
    { intros k d Hk.
      pose proof (get_substring fname i (String.length fname - i) (S k)) as Hg.
      rewrite Hs in Hg. simpl in Hg. rewrite Hk in Hg.
      destruct (S k <? String.length fname - i)%nat eqn:Hlt; [|done].
      apply Nat.ltb_lt in Hlt. apply (Hafter (i + S k)%nat); [lia|done]. }
    assert (c = "."%char) as ->.
    { pose proof (get_substring fname i (String.length fname - i) 0) as Hg.
      rewrite Hs, Nat.add_0_r, Hget in Hg. simpl in Hg.
      destruct (String.length fname - i)%nat; [done|]. simpl in Hg. congruence. }
    exists t. split; [done|].
    split; apply not_true_is_false; intros [j Hj]%contains_get;
      by destruct (Hall _ _ Hj).
Qed.

(** X1.  A file name is its stem followed by its extension
    ([stripExtension] cuts exactly what [filepath.Ext] returns), and the
    extension is empty or one period followed by bytes that are neither a
    period nor a separator. *)
Theorem stripExtension_Ext (fname : string) :
  stripExtension fname +:+ filepath.Ext fname = fname
  /\ (filepath.Ext fname = ""
      \/ exists t, filepath.Ext fname = String "." t
           /\ strings.contains "." t = false /\ strings.contains "/" t = false).
Proof. apply stem_and_extension. Qed.

(** ** What the sanitizers leave in a name *)

Lemma contains_app (c : ascii) (a b : string) :
  strings.contains c (a +:+ b) = strings.contains c a || strings.contains c b.
Proof.
  induction a as [|x a IH]; [done|].
  change (strings.contains c (String x (a +:+ b))
          = strings.contains c (String x a) || strings.contains c b).
  simpl. rewrite IH. by rewrite orb_assoc.
Qed.

(** [strings.Replace] only writes bytes of the text and of [new]. *)
Lemma replaceFrom_keep (c : ascii) (k : nat) (s old new : string) :
  strings.contains c new = false -> strings.contains c s = false ->
  strings.contains c (strings.replaceFrom k s old new) = false.
Proof.
  intros Hnew. revert k. induction s as [|d s IH]; intros k; [done|].
  cbn [strings.contains strings.replaceFrom].
  intros [Hd Hs]%orb_false_elim. destruct k as [|k]; [|by apply IH].
  destruct (strings.HasPrefix (String d s) old).
  - rewrite contains_app, Hnew. by apply IH.
  - cbn [strings.contains]. rewrite Hd. by apply IH.
Qed.

Lemma Replace_keep (c : ascii) (s old new : string) :
  strings.contains c new = false -> strings.contains c s = false ->
  strings.contains c (strings.Replace s old new) = false.
Proof. apply replaceFrom_keep. Qed.

(** Replacing a byte leaves none of it, when [new] has none. *)
Lemma Replace_kill (c : ascii) (s new : string) :
  strings.contains c new = false ->
  strings.contains c (strings.Replace s (String c "") new) = false.
Proof.
  intros Hnew. unfold strings.Replace. induction s as [|d s IH]; [done|].
  cbn [strings.replaceFrom].
  assert (strings.HasPrefix (String d s) (String c "") = Ascii.eqb c d) as ->.
  { cbn [strings.HasPrefix]. destruct s; apply andb_true_r. }
  destruct (Ascii.eqb_spec c d) as [<-|Hcd].
  - cbn [String.length Nat.pred]. by rewrite contains_app, Hnew, IH.
  - cbn [strings.contains]. rewrite IH, orb_false_r. by apply Ascii.eqb_neq.
Qed.

Lemma ReplaceAllClass_keep (c : ascii) (class s repl : string) :
  strings.contains c repl = false -> strings.contains c s = false ->
  strings.contains c (regexp.ReplaceAllClass class s repl) = false.
Proof.
  intros Hrepl. induction s as [|d s IH]; simpl; [done|].
  intros [Hd Hs]%orb_false_elim. destruct (strings.contains d class).
  - rewrite contains_app, Hrepl. by apply IH.
  - simpl. rewrite Hd. by apply IH.
Qed.

Lemma ReplaceAllClass_kill (c : ascii) (class s repl : string) :
  strings.contains c class = true -> strings.contains c repl = false ->
  strings.contains c (regexp.ReplaceAllClass class s repl) = false.
Proof.
  intros Hclass Hrepl. induction s as [|d s IH]; simpl; [done|].
  destruct (strings.contains d class) eqn:Hd.
  - by rewrite contains_app, Hrepl, IH.
  - simpl. rewrite IH, orb_false_r. apply Ascii.eqb_neq. intros <-. congruence.
Qed.

Lemma TrimLeft_keep (c : ascii) (s cutset : string) :
  strings.contains c s = false -> strings.contains c (strings.TrimLeft s cutset) = false.
Proof.
  induction s as [|d s IH]; simpl; [done|].
  intros H. destruct (strings.contains d cutset); [|done].
  apply orb_false_elim in H as [_ Hs]. by apply IH.
Qed.

Lemma TrimRight_keep (c : ascii) (s cutset : string) :
  strings.contains c s = false -> strings.contains c (strings.TrimRight s cutset) = false.
Proof.
  induction s as [|d s IH]; simpl; [done|].
  intros [Hd Hs]%orb_false_elim. specialize (IH Hs).
  destruct (strings.TrimRight s cutset) as [|e t].
  - destruct (strings.contains d cutset); [done|]. simpl. by rewrite Hd.
  - simpl. simpl in IH. by rewrite Hd, IH.
Qed.

Lemma Trim_keep (c : ascii) (s cutset : string) :
  strings.contains c s = false -> strings.contains c (strings.Trim s cutset) = false.
Proof. intros H. by apply TrimRight_keep, TrimLeft_keep. Qed.

Lemma TrimSuffix_keep (c : ascii) (s suffix : string) :
  strings.contains c s = false -> strings.contains c (strings.TrimSuffix s suffix) = false.
Proof.
  induction s as [|d s IH]; [done|]. cbn [strings.contains strings.TrimSuffix].
  intros [Hd Hs]%orb_false_elim. destruct (String.eqb (String d s) suffix); [done|].
  cbn [strings.contains]. by rewrite Hd, IH.
Qed.

Lemma contains_In (c : ascii) (s : string) :
  strings.contains c s = true -> In c (String.list_ascii_of_string s).
Proof.
  induction s as [|d s IH]; simpl; [done|].
  intros [->%Ascii.eqb_eq|H]%orb_true_iff; auto.
Qed.

Ltac contains_cases :=
  match goal with
  | H : strings.contains _ _ = true |- _ =>
      apply contains_In in H; cbv [String.append backslash quote] in H; simpl in H;
      repeat (destruct H as [<-|H]; [|]); [..|destruct H]
  end.

Ltac sanitize_step :=
  first [ apply TrimSuffix_keep | apply Trim_keep
        | apply Replace_kill; reflexivity
        | apply Replace_keep; [reflexivity|]
        | apply ReplaceAllClass_kill; reflexivity
        | apply ReplaceAllClass_keep; [reflexivity|] ].

(** X2.  [CleanSeriesName] returns a name without any of the bytes it
    replaces or strips: backslash, slash, star, colon, double quote, angle
    brackets, bar and question mark. *)
Theorem CleanSeriesName_forbidden (name : string) (c : ascii) :
  strings.contains c (backslash +:+ "/*:" +:+ quote +:+ "<>|?") = true ->
  strings.contains c (CleanSeriesName name) = false.
Proof.
  intros H. unfold CleanSeriesName. contains_cases; repeat sanitize_step.
Qed.

(** X3.  [SanitizeSceneName] returns a name without a comma, colon,
    parenthesis, exclamation or question mark, apostrophe, ampersand, slash
    or space. *)
Theorem SanitizeSceneName_removed (name : string) (c : ascii) :
  strings.contains c ",:()!?'&/ " = true ->
  strings.contains c (SanitizeSceneName name) = false.
Proof.
  intros H. unfold SanitizeSceneName, bad_chars. cbn [foldl].
  contains_cases; repeat sanitize_step.
Qed.

Lemma toLowerByte_not_upper (d : ascii) : strings.isUpper (strings.toLowerByte d) = false.
Proof.
  unfold strings.toLowerByte. destruct (strings.isUpper d) eqn:Hd; [|done].
  unfold strings.isUpper in *. apply andb_prop in Hd as [H1%Nat.leb_le H2%Nat.leb_le].
  rewrite nat_ascii_embedding by lia.
  apply andb_false_iff. right. apply Nat.leb_gt. lia.
Qed.

(** [ToLower] writes a byte that is not a small letter only where the text
    has it. *)
Lemma ToLower_keep (c : ascii) (s : string) :
  (nat_of_ascii c < 97 \/ 122 < nat_of_ascii c)%nat ->
  strings.contains c s = false -> strings.contains c (strings.ToLower s) = false.
Proof.
  intros Hc. induction s as [|d s IH]; simpl; [done|].
  intros [Hd Hs]%orb_false_elim. rewrite (IH Hs), orb_false_r.
  apply Ascii.eqb_neq. intros ->. apply Ascii.eqb_neq in Hd. apply Hd.
  unfold strings.toLowerByte in *. destruct (strings.isUpper d) eqn:Hup; [|done].
  unfold strings.isUpper in Hup. apply andb_prop in Hup as [H1%Nat.leb_le H2%Nat.leb_le].
  rewrite nat_ascii_embedding in Hc by lia. lia.
Qed.

Lemma ToLower_no_upper (c : ascii) (s : string) :
  strings.isUpper c = true -> strings.contains c (strings.ToLower s) = false.
Proof.
  intros Hc. induction s as [|d s IH]; simpl; [done|].
  rewrite IH, orb_false_r. apply Ascii.eqb_neq. intros ->.
  by rewrite toLowerByte_not_upper in Hc.
Qed.

(** Trimming twice is trimming once. *)
Lemma TrimLeft_head_out (s cutset t : string) (c : ascii) :
  strings.TrimLeft s cutset = String c t -> strings.contains c cutset = false.
Proof.
  induction s as [|d s IH]; simpl; [done|].
  destruct (strings.contains d cutset) eqn:Hd; [done|]. by intros [= <- _].
Qed.

Lemma TrimRight_cons (s cutset t : string) (d e : ascii) :
  strings.TrimRight s cutset = String e t ->
  strings.TrimRight (String d s) cutset = String d (String e t).
Proof. intros H. simpl. by rewrite H. Qed.

Lemma TrimRight_idem (s cutset : string) :
  strings.TrimRight (strings.TrimRight s cutset) cutset = strings.TrimRight s cutset.
Proof.
  induction s as [|d s IH]; [done|]. cbn [strings.TrimRight].
  destruct (strings.TrimRight s cutset) as [|e t] eqn:Ht.
  - destruct (strings.contains d cutset) eqn:Hd; simpl; [done|]. by rewrite Hd.
  - by apply TrimRight_cons.
Qed.

Lemma TrimRight_head (s cutset : string) (c : ascii) :
  strings.contains c cutset = false ->
  exists t, strings.TrimRight (String c s) cutset = String c t.
Proof.
  intros Hc. simpl. destruct (strings.TrimRight s cutset) as [|e t]; [|by eexists].
  rewrite Hc. by eexists.
Qed.

Lemma Trim_idem (s cutset : string) :
  strings.Trim (strings.Trim s cutset) cutset = strings.Trim s cutset.
Proof.
  unfold strings.Trim.
  assert (strings.TrimLeft (strings.TrimRight (strings.TrimLeft s cutset) cutset) cutset
          = strings.TrimRight (strings.TrimLeft s cutset) cutset) as ->.
  { destruct (strings.TrimLeft s cutset) as [|c t] eqn:Hl; [done|].
    apply TrimLeft_head_out in Hl as Hc.
    destruct (TrimRight_head t cutset c Hc) as [r ->]. simpl. by rewrite Hc. }
  apply TrimRight_idem.
Qed.

(** X4.  On an ASCII name [FullSanitizeSceneName] returns a string without
    period, dash, capital letter or any byte [SanitizeSceneName] removes
    (spaces apart), and with no white space at either end: sanitizing white
    space again changes nothing. *)
Theorem FullSanitizeSceneName_normal (name : string) :
  isASCII name = true ->
  (forall c, strings.contains c ".-,:()!?'&/" = true \/ strings.isUpper c = true ->
     strings.contains c (FullSanitizeSceneName name) = false)
  /\ strings.TrimSpace (FullSanitizeSceneName name) = FullSanitizeSceneName name.
Proof.
  intros _. split; [|apply Trim_idem].
  intros c [H|Hup]; unfold FullSanitizeSceneName, strings.TrimSpace.
  - contains_cases.
    all: apply Trim_keep, ToLower_keep; [left; apply Nat.ltb_lt; reflexivity|].
    all: first [ apply ReplaceAllClass_kill; reflexivity
               | apply ReplaceAllClass_keep;
                 [reflexivity|
                  unfold SanitizeSceneName, bad_chars; cbn [foldl];
                  repeat sanitize_step] ].
  - by apply Trim_keep, ToLower_no_upper.
Qed.

(** ** The media-file classifier *)

Lemma toLowerByte_period (c : ascii) :
  Ascii.eqb (strings.toLowerByte c) "." = Ascii.eqb c ".".
Proof.
  unfold strings.toLowerByte. destruct (strings.isUpper c) eqn:Hup; [|done].
  unfold strings.isUpper in Hup. apply andb_prop in Hup as [H1%Nat.leb_le H2%Nat.leb_le].
  destruct (Ascii.eqb_spec c ".") as [->|Hc];
    [vm_compute (nat_of_ascii ".") in H1; lia|].
  apply Ascii.eqb_neq. intros Heq.
  apply (f_equal nat_of_ascii) in Heq. rewrite nat_ascii_embedding in Heq by lia.
  vm_compute (nat_of_ascii ".") in Heq. lia.
Qed.

Lemma ToLower_TrimLeft_period (s : string) :
  strings.ToLower (strings.TrimLeft s ".") = strings.TrimLeft (strings.ToLower s) ".".
Proof.
  induction s as [|c s IH]; [done|]. cbn [strings.TrimLeft strings.ToLower strings.contains].
  rewrite !orb_false_r, toLowerByte_period. by destruct (Ascii.eqb c ".").
Qed.

Lemma TrimLeft_dots (n : nat) (s : string) :
  strings.TrimLeft (dots n +:+ s) "." = strings.TrimLeft s ".".
Proof. induction n as [|n IH]; [done|]. exact IH. Qed.

(** X5.  [IsMediaExtension] looks neither at leading periods nor at the
    case of ASCII letters. *)
Theorem IsMediaExtension_insensitive (e1 e2 : string) (n m : nat) :
  isASCII e1 = true -> isASCII e2 = true ->
  strings.ToLower e1 = strings.ToLower e2 ->
  IsMediaExtension (dots n +:+ e1) = IsMediaExtension (dots m +:+ e2).
Proof.
  intros _ _ Heq. unfold IsMediaExtension.
  by rewrite !TrimLeft_dots, !ToLower_TrimLeft_period, Heq.
Qed.

Lemma TrimLeft_absent (c : ascii) (s : string) :
  strings.contains c s = false -> strings.TrimLeft s (String c "") = s.
Proof.
  destruct s as [|d s]; [done|]. cbn [strings.contains strings.TrimLeft].
  intros [Hd _]%orb_false_elim. rewrite orb_false_r, Ascii.eqb_sym. by rewrite Hd.
Qed.

(** X6.  A name that [IsMediaFile] accepts is a stem, a period and an
    extension without period or separator whose lower-case form is one of
    [mediaExtensions]; it does not begin with the resource-fork prefix and
    holds no sample token. *)
Theorem IsMediaFile_true (filename : string) :
  isASCII filename = true ->
  IsMediaFile filename = true ->
  (exists ext,
     filename = stripExtension filename +:+ String "." ext
     /\ In (strings.ToLower ext) mediaExtensions
     /\ strings.contains "." ext = false /\ strings.contains "/" ext = false)
  /\ strings.HasPrefix filename "._" = false
  /\ sampleRegex_MatchString filename = false
  /\ extrasRegex_MatchString (stripExtension filename) = false.
Proof.
  intros _. unfold IsMediaFile.
  destruct (sampleRegex_MatchString filename); [done|].
  destruct (strings.HasPrefix filename "._"); [done|].
  destruct (extrasRegex_MatchString (stripExtension filename)); [done|].
  intros Hext. repeat split; try done.
  destruct (stem_and_extension filename) as [Hsplit [Hnone|(t & Ht & Hdot & Hsep)]].
  { by rewrite Hnone in Hext. }
  exists t. rewrite Ht in Hsplit, Hext. repeat split; try done.
  unfold IsMediaExtension in Hext.
  change (strings.TrimLeft (String "." t) ".") with (strings.TrimLeft t ".") in Hext.
  rewrite (TrimLeft_absent "." t Hdot) in Hext.
  apply existsb_exists in Hext as (x & Hin & ->%String.eqb_eq). done.
Qed.

Lemma stripPrefixFold_ToLower (w literal t : string) :
  strings.ToLower w = literal -> stripPrefixFold (w +:+ t) literal = Some t.
Proof.
  revert literal. induction w as [|c w IH]; intros literal <-.
  - by destruct t.
  - change (stripPrefixFold (String c (w +:+ t))
              (String (strings.toLowerByte c) (strings.ToLower w)) = Some t).
    cbn [stripPrefixFold]. rewrite Ascii.eqb_refl. by apply IH.
Qed.

Lemma digit_isDigit (c : ascii) : is_Some (strconv.digit c) -> isDigit c = true.
Proof.
  unfold strconv.digit, isDigit. intros [d Hd]. case_match eqn:H; [|done].
  apply andb_prop in H as [H1%Z.leb_le H2%Z.leb_le].
  apply andb_true_intro. split; apply Nat.leb_le; lia.
Qed.

Lemma isAlnum_isDigit (c : ascii) : isAlnum c = false -> isDigit c = false.
Proof.
  unfold isAlnum, isDigit. intros H.
  by apply orb_false_elim in H as [[H _]%orb_false_elim _].
Qed.

Lemma dropDigits_app (num : string) (sep : ascii) (rest : string) :
  allDigits num = true -> isAlnum sep = false ->
  dropDigits (num +:+ String sep rest) = String sep rest.
Proof.
  intros Hnum Hsep. induction num as [|c num IH].
  - change (dropDigits (String sep rest) = String sep rest).
    cbn [dropDigits]. by rewrite (isAlnum_isDigit _ Hsep).
  - simpl in Hnum. apply andb_prop in Hnum as [Hc%bool_decide_eq_true Hnum].
    change (dropDigits (String c (num +:+ String sep rest)) = String sep rest).
    cbn [dropDigits]. rewrite (digit_isDigit _ Hc). by apply IH.
Qed.

Lemma sampleSearch_app (start : bool) (pre s : string) :
  boundaryAfter start pre = true -> sampleAt s = true ->
  sampleSearch start (pre +:+ s) = true.
Proof.
  revert start. induction pre as [|c pre IH]; intros start Hb Hs.
  - simpl in Hb. subst start. destruct s as [|c s]; [done|].
    change (true && sampleAt (String c s)
            || sampleSearch (negb (isAlnum c)) s = true).
    by rewrite Hs.
  - change (sampleSearch start (String c (pre +:+ s)) = true).
    cbn [sampleSearch]. rewrite (IH _ Hb Hs). apply orb_true_r.
Qed.

(** X7.  A name that holds the word [sample] in any case, between the
    start of the name or a byte that is no letter and no digit on one side
    and, after any digits, such a byte on the other, is not a media file,
    whatever its extension. *)
Theorem IsMediaFile_sample (pre w num : string) (sep : ascii) (rest : string) :
  isASCII (pre +:+ w +:+ num +:+ String sep rest) = true ->
  boundaryAfter true pre = true ->
  strings.ToLower w = "sample" ->
  allDigits num = true ->
  isAlnum sep = false ->
  IsMediaFile (pre +:+ w +:+ num +:+ String sep rest) = false.
Proof.
  intros _ Hpre Hw Hnum Hsep. unfold IsMediaFile, sampleRegex_MatchString.
  rewrite sampleSearch_app; [done|done|].
  unfold sampleAt. rewrite (stripPrefixFold_ToLower _ _ _ Hw).
  by rewrite (dropDigits_app _ _ _ Hnum Hsep), Hsep.
Qed.

Lemma ToLower_app (a b : string) :
  strings.ToLower (a +:+ b) = strings.ToLower a +:+ strings.ToLower b.
Proof. induction a as [|c a IH]; [done|]. exact (f_equal (String _) IH). Qed.

Lemma extrasRegex_app (p w : string) :
  strings.ToLower w = "extra" \/ strings.ToLower w = "extras" ->
  extrasRegex_MatchString (p +:+ w) = true.
Proof.
  intros Hw. induction p as [|c p IH].
  - destruct w as [|c w]; [by destruct Hw|].
    change (String.eqb (strings.ToLower (String c w)) "extra"
            || String.eqb (strings.ToLower (String c w)) "extras"
            || extrasRegex_MatchString w = true).
    destruct Hw as [-> | ->]; [done|]. apply orb_true_iff. left. apply orb_true_r.
  - change (extrasRegex_MatchString (String c (p +:+ w)) = true).
    cbn [extrasRegex_MatchString]. rewrite IH. apply orb_true_r.
Qed.

(** X8.  A name whose stem, the name without its extension, ends in
    [extra] or [extras] in any case is not a media file. *)
Theorem IsMediaFile_extras (filename p w : string) :
  isASCII filename = true ->
  stripExtension filename = p +:+ w ->
  strings.ToLower w = "extra" \/ strings.ToLower w = "extras" ->
  IsMediaFile filename = false.
Proof.
  intros _ Hstem Hw. unfold IsMediaFile.
  destruct (sampleRegex_MatchString filename); [done|].
  destruct (strings.HasPrefix filename "._"); [done|].
  by rewrite Hstem, (extrasRegex_app _ _ Hw).
Qed.

(** ** The fields of a candidate *)

Section CandidateFacts.

Context {Time Quality : Type}.
Variable zeroTime : Time.
Variable time_Date : Z -> Z -> Z -> Time.
Variable TranslateYMD : string -> list string -> Z * Z * Z.
Variable zeroQuality : Quality.

Implicit Types (pr : ParseResult (Time := Time) (Quality := Quality)).
Implicit Types (matches : gmap string string).

Local Abbreviation parseRule := (parseRule zeroTime time_Date TranslateYMD zeroQuality).
Local Abbreviation initialResult := (initialResult zeroTime zeroQuality).
Local Abbreviation on_air_date := (on_air_date time_Date TranslateYMD).

Local Ltac rest_block :=
  intros; repeat case_match; simplify_eq; simpl; repeat split; auto.

(** The fields a block does not assign. *)
Lemma on_series_name_rest matches pr :
  let pr' := on_series_name matches pr in
  ReleaseGroup pr' = ReleaseGroup pr /\ ExtraInfo pr' = ExtraInfo pr
  /\ Quality_ pr' = Quality_ pr /\ AbsoluteEpisodeNumbers pr' = AbsoluteEpisodeNumbers pr.
Proof. unfold on_series_name. rest_block. Qed.

Lemma on_series_num_rest matches pr :
  let pr' := on_series_num matches pr in
  SeriesName pr' = SeriesName pr /\ ReleaseGroup pr' = ReleaseGroup pr
  /\ ExtraInfo pr' = ExtraInfo pr /\ Quality_ pr' = Quality_ pr
  /\ AbsoluteEpisodeNumbers pr' = AbsoluteEpisodeNumbers pr.
Proof. unfold on_series_num. rest_block. Qed.

Lemma on_season_num_rest matches pr pr' :
  on_season_num matches pr = Some pr' ->
  SeriesName pr' = SeriesName pr /\ ReleaseGroup pr' = ReleaseGroup pr
  /\ ExtraInfo pr' = ExtraInfo pr /\ Quality_ pr' = Quality_ pr
  /\ AbsoluteEpisodeNumbers pr' = AbsoluteEpisodeNumbers pr.
Proof. unfold on_season_num. rest_block. Qed.

Lemma on_ep_num_rest matches pr pr' :
  on_ep_num matches pr = Some pr' ->
  SeriesName pr' = SeriesName pr /\ ReleaseGroup pr' = ReleaseGroup pr
  /\ ExtraInfo pr' = ExtraInfo pr /\ Quality_ pr' = Quality_ pr
  /\ AbsoluteEpisodeNumbers pr' = AbsoluteEpisodeNumbers pr.
Proof. unfold on_ep_num. rest_block. Qed.

Lemma on_ep_ab_num_rest matches pr pr' :
  on_ep_ab_num matches pr = Some pr' ->
  SeriesName pr' = SeriesName pr /\ ReleaseGroup pr' = ReleaseGroup pr
  /\ ExtraInfo pr' = ExtraInfo pr /\ Quality_ pr' = Quality_ pr.
Proof. unfold on_ep_ab_num. rest_block. Qed.

Lemma on_air_date_rest matches pr pr' :
  on_air_date matches pr = Some pr' ->
  SeriesName pr' = SeriesName pr /\ ReleaseGroup pr' = ReleaseGroup pr
  /\ ExtraInfo pr' = ExtraInfo pr /\ Quality_ pr' = Quality_ pr
  /\ AbsoluteEpisodeNumbers pr' = AbsoluteEpisodeNumbers pr.
Proof. unfold on_air_date. rest_block. Qed.

Lemma on_release_group_rest matches pr :
  let pr' := on_release_group matches pr in
  SeriesName pr' = SeriesName pr /\ ExtraInfo pr' = ExtraInfo pr
  /\ Quality_ pr' = Quality_ pr /\ AbsoluteEpisodeNumbers pr' = AbsoluteEpisodeNumbers pr.
Proof. unfold on_release_group. rest_block. Qed.

Lemma on_version_rest matches pr :
  let pr' := on_version matches pr in
  SeriesName pr' = SeriesName pr /\ ReleaseGroup pr' = ReleaseGroup pr
  /\ ExtraInfo pr' = ExtraInfo pr /\ Quality_ pr' = Quality_ pr
  /\ AbsoluteEpisodeNumbers pr' = AbsoluteEpisodeNumbers pr.
Proof. unfold on_version. rest_block. Qed.

(** A candidate in terms of the states between the blocks that can leave
    the turn. *)
Lemma parseRule_rest name i r pr matches :
  parseRule name i r = Some pr ->
  regexNamedMatch (Regex r) name = Some matches ->
  exists p1 p2 p3 p4,
    on_season_num matches
      (on_series_num matches (on_series_name matches (initialResult name i r))) = Some p1
    /\ on_ep_num matches p1 = Some p2
    /\ on_ep_ab_num matches p2 = Some p3
    /\ on_air_date matches p3 = Some p4
    /\ SeriesName pr = SeriesName (on_series_name matches (initialResult name i r))
    /\ ReleaseGroup pr = ReleaseGroup (on_release_group matches (initialResult name i r))
    /\ ExtraInfo pr = ""
    /\ Quality_ pr = zeroQuality
    /\ AbsoluteEpisodeNumbers p2 = []
    /\ AbsoluteEpisodeNumbers pr = AbsoluteEpisodeNumbers p3
    /\ EpisodeNumbers p1 = []
    /\ EpisodeNumbers pr = EpisodeNumbers p2.
Proof.
  intros Hpr Hm.
  destruct (parseRule_fields _ _ _ _ _ _ _ _ _ Hpr Hm)
    as (p1 & p2 & p3 & p4 & H1 & H2 & H3 & H4 & _ & _ & HE1 & HE & _).
  exists p1, p2, p3, p4. repeat (split; [done|]).
  apply parseRule_Some in Hpr as (m' & q1 & q2 & q3 & q4 & Hm' & G1 & G2 & G3 & G4 & ->).
  assert (m' = matches) as -> by congruence.
  assert (q1 = p1) as -> by congruence. assert (q2 = p2) as -> by congruence.
  assert (q3 = p3) as -> by congruence. assert (q4 = p4) as -> by congruence.
  pose proof (on_series_name_rest matches (initialResult name i r)) as (Ga & Xa & Qa & Aa).
  pose proof (on_series_num_rest matches
                (on_series_name matches (initialResult name i r)))
    as (Nb & Gb & Xb & Qb & Ab).
  pose proof (on_season_num_rest _ _ _ H1) as (N1 & R1 & X1 & Q1 & A1).
  pose proof (on_ep_num_rest _ _ _ H2) as (N2 & R2 & X2 & Q2 & A2).
  pose proof (on_ep_ab_num_rest _ _ _ H3) as (N3 & R3 & X3 & Q3).
  pose proof (on_air_date_rest _ _ _ H4) as (N4 & R4 & X4 & Q4 & A4).
  rewrite on_extra_info_id in *.
  pose proof (on_release_group_rest matches p4) as (Ng & Xg & Qg & Ag).
  pose proof (on_version_rest matches (on_release_group matches p4))
    as (Nv & Rv & Xv & Qv & Av).
  cbv zeta in *. simpl in Ga, Xa, Qa, Aa.
  assert (ReleaseGroup (on_release_group matches p4)
          = ReleaseGroup (on_release_group matches (initialResult name i r))) as Hrg.
  { unfold on_release_group. case_match; simpl; [done|]. congruence. }
  repeat split; congruence.
Qed.

(** X9.  In a candidate the series name is the captured one passed through
    [CleanSeriesName] and the release group is the capture as it is; a field
    without a capture is empty, and the extra info and the quality are never
    filled by the rule loop. *)
Theorem parseRule_descriptive name i r pr matches :
  parseRule name i r = Some pr ->
  regexNamedMatch (Regex r) name = Some matches ->
  SeriesName pr
  = match matches !! "series_name" with Some m => CleanSeriesName m | None => "" end
  /\ ReleaseGroup pr
     = match matches !! "release_group" with Some m => m | None => "" end
  /\ ExtraInfo pr = ""
  /\ Quality_ pr = zeroQuality.
Proof.
  intros Hpr Hm.
  destruct (parseRule_rest _ _ _ _ _ Hpr Hm)
    as (p1 & p2 & p3 & p4 & _ & _ & _ & _ & HN & HR & HX & HQ & _).
  rewrite HN, HR. unfold on_series_name, on_release_group.
  repeat split; try done; by case_match.
Qed.

(** X10.  The absolute episode number is converted as captured, leading
    zeros and all, so that a capture of zeros gives episode 0; a capture that
    does not convert leaves the rule without candidate. *)
Theorem parseRule_absolute name i r matches :
  regexNamedMatch (Regex r) name = Some matches ->
  (forall m, matches !! "ep_ab_num" = Some m -> (strconv.ParseInt m).2 <> None ->
     parseRule name i r = None)
  /\ (forall pr, parseRule name i r = Some pr ->
        match matches !! "ep_ab_num" with
        | Some m =>
            strconv.ParseInt m = (((strconv.ParseInt m).1), None)
            /\ AbsoluteEpisodeNumbers pr = [(strconv.ParseInt m).1]
        | None => AbsoluteEpisodeNumbers pr = []
        end).
Proof.
  intros Hm.
  assert (forall pr, parseRule name i r = Some pr ->
            match matches !! "ep_ab_num" with
            | Some m =>
                strconv.ParseInt m = (((strconv.ParseInt m).1), None)
                /\ AbsoluteEpisodeNumbers pr = [(strconv.ParseInt m).1]
            | None => AbsoluteEpisodeNumbers pr = []
            end) as Hcand.
  { intros pr Hpr.
    destruct (parseRule_rest _ _ _ _ _ Hpr Hm)
      as (p1 & p2 & p3 & p4 & _ & _ & H3 & _ & _ & _ & _ & _ & HA2 & HA & _).
    rewrite HA. unfold on_ep_ab_num in H3.
    destruct (matches !! "ep_ab_num") as [m|]; [|by simplify_eq].
    destruct (strconv.ParseInt m) as [n [e|]]; by simplify_eq. }
  split; [|done].
  intros m Hcap Hfail. destruct (parseRule name i r) as [pr|] eqn:Hpr; [|done].
  specialize (Hcand pr eq_refl). rewrite Hcap in Hcand.
  destruct Hcand as [Hok _]. rewrite Hok in Hfail. done.
Qed.

(** X11.  The episode numbers of a candidate: none without a primary
    capture (a secondary capture alone is ignored), the converted primary
    number alone without a secondary capture, and both numbers when the
    secondary capture converts, which is read with its leading zeros. *)
Theorem parseRule_episodes name i r pr matches :
  parseRule name i r = Some pr ->
  regexNamedMatch (Regex r) name = Some matches ->
  match matches !! "ep_num", matches !! "extra_ep_num" with
  | None, _ => EpisodeNumbers pr = []
  | Some m, None => EpisodeNumbers pr = [(strconv.ParseInt (strings.TrimLeft m "0")).1]
  | Some m, Some extraEp =>
      (strconv.ParseInt extraEp).2 = None ->
      EpisodeNumbers pr
      = [(strconv.ParseInt (strings.TrimLeft m "0")).1; (strconv.ParseInt extraEp).1]
  end.
Proof.
  intros Hpr Hm.
  destruct (parseRule_rest _ _ _ _ _ Hpr Hm)
    as (p1 & p2 & p3 & p4 & _ & H2 & _ & _ & _ & _ & _ & _ & _ & _ & HE1 & HE).
  rewrite HE. unfold on_ep_num in H2.
  destruct (matches !! "ep_num") as [m|]; [|by simplify_eq].
  cbv zeta in H2.
  destruct (strconv.ParseInt (strings.TrimLeft m "0")) as [en [e|]]; [done|].
  destruct (matches !! "extra_ep_num") as [x|]; [|by simplify_eq].
  destruct (strconv.ParseInt x) as [xc [e|]]; by simplify_eq.
Qed.

(** X12.  A captured season or primary episode number that does not
    convert after its leading zeros are cut, and a captured air date
    translated to year 0 or month 0, leave the rule without candidate. *)
Theorem parseRule_conversion_failure name i r matches :
  regexNamedMatch (Regex r) name = Some matches ->
  (forall m, matches !! "season_num" = Some m \/ matches !! "ep_num" = Some m ->
     (strconv.ParseInt (strings.TrimLeft m "0")).2 <> None ->
     parseRule name i r = None)
  /\ (forall m, matches !! "air_date" = Some m ->
        (TranslateYMD m [""; "D"; "MD"; "YMD"]).1.1 = 0
        \/ (TranslateYMD m [""; "D"; "MD"; "YMD"]).1.2 = 0 ->
        parseRule name i r = None).
Proof.
  intros Hm. split.
  - intros m Hcap Hfail. destruct (parseRule name i r) as [pr|] eqn:Hpr; [|done]. exfalso.
    destruct (parseRule_rest _ _ _ _ _ Hpr Hm) as (p1 & p2 & p3 & p4 & H1 & H2 & _).
    destruct Hcap as [Hs|He].
    + unfold on_season_num in H1. rewrite Hs in H1. cbv zeta in H1.
      destruct (strconv.ParseInt (strings.TrimLeft m "0")) as [n [e|]]; done.
    + unfold on_ep_num in H2. rewrite He in H2. cbv zeta in H2.
      destruct (strconv.ParseInt (strings.TrimLeft m "0")) as [n [e|]]; done.
  - intros m Hcap Hzero. destruct (parseRule name i r) as [pr|] eqn:Hpr; [|done]. exfalso.
    destruct (parseRule_rest _ _ _ _ _ Hpr Hm) as (p1 & p2 & p3 & p4 & _ & _ & _ & H4 & _).
    destruct (on_air_date_value _ _ _ _ _ _ H4 Hcap) as (y & mo & d & Ht & Hy & Hmo & _).
    rewrite Ht in Hzero. simpl in Hzero. by destruct Hzero.
Qed.

(** X13.  [FirstEpisode] of a candidate: the converted primary episode
    number when there is a primary and no secondary capture, the absolute
    number when there is no primary capture, 0 when there is neither. *)
Theorem FirstEpisode_candidate name i r pr matches :
  parseRule name i r = Some pr ->
  regexNamedMatch (Regex r) name = Some matches ->
  match matches !! "ep_num", matches !! "extra_ep_num", matches !! "ep_ab_num" with
  | Some m, None, _ => FirstEpisode pr = (strconv.ParseInt (strings.TrimLeft m "0")).1
  | Some m, Some _, _ => True
  | None, _, Some a => FirstEpisode pr = (strconv.ParseInt a).1
  | None, _, None => FirstEpisode pr = 0
  end.
Proof.
  intros Hpr Hm.
  destruct (parseRule_rest _ _ _ _ _ Hpr Hm)
    as (p1 & p2 & p3 & p4 & _ & H2 & H3 & _ & _ & _ & _ & _ & HA2 & HA & HE1 & HE).
  unfold FirstEpisode. rewrite HE, HA. unfold on_ep_num in H2. unfold on_ep_ab_num in H3.
  destruct (matches !! "ep_num") as [m|].
  - cbv zeta in H2. destruct (matches !! "extra_ep_num"); [done|].
    destruct (strconv.ParseInt (strings.TrimLeft m "0")) as [en [e|]]; by simplify_eq.
  - simplify_eq. rewrite HE1.
    destruct (matches !! "ep_ab_num") as [a|].
    + destruct (strconv.ParseInt a) as [n [e|]]; simplify_eq.
      by destruct (matches !! "extra_ep_num").
    + simplify_eq. rewrite HA2. by destruct (matches !! "extra_ep_num").
Qed.

End CandidateFacts.

(** ** What [parseString] and [ParseFile] return *)

Lemma bonus_range (k : string) (matches : gmap string string) :
  0 <= bonus k matches <= 1.
Proof. unfold bonus. case_match; lia. Qed.

Section ResultFacts.

Context {Time Quality : Type}.
Variable zeroTime : Time.
Variable time_Date : Z -> Z -> Z -> Time.
Variable TranslateYMD : string -> list string -> Z * Z * Z.
Variable zeroQuality : Quality.
Variable QualityFromName : string -> bool -> Quality.
Variable isEmptyQuality : Quality -> bool.

Local Abbreviation Result := (ParseResult (Time := Time) (Quality := Quality)).

Variable sort_Sort : (Result -> Result -> bool) -> list Result -> list Result.

Hypothesis sort_Sort_perm : forall less l, sort_Sort less l ≡ₚ l.
Hypothesis sort_Sort_sorted : forall less l,
  (forall a b, less a b = true -> less b a = false) ->
  (forall a b c, less a b = false -> less b c = false -> less a c = false) ->
  StronglySorted (fun a b => less b a = false) (sort_Sort less l).

Implicit Types (pr best : Result) (np : NameParser).

Local Abbreviation parseRule := (parseRule zeroTime time_Date TranslateYMD zeroQuality).
Local Abbreviation parseRules := (parseRules zeroTime time_Date TranslateYMD zeroQuality).
Local Abbreviation parseString :=
  (parseString zeroTime time_Date TranslateYMD zeroQuality sort_Sort).
Local Abbreviation Parse :=
  (Parse zeroTime time_Date TranslateYMD zeroQuality QualityFromName sort_Sort).
Local Abbreviation ParseFile :=
  (ParseFile zeroTime time_Date TranslateYMD zeroQuality QualityFromName sort_Sort
     isEmptyQuality).
Local Abbreviation emptyResult := (emptyResult zeroTime zeroQuality).

(** A candidate comes from a rule that matches, carries its name and the
    input, and scores between [-i] and [5 - i]. *)
Lemma candidate_origin name i r pr :
  parseRule name i r = Some pr ->
  Matches (Regex r name) = true
  /\ OriginalName pr = name /\ RegexUsed pr = Name r
  /\ ExtraInfo pr = ""
  /\ - Z.of_nat i <= Score pr <= 5 - Z.of_nat i.
Proof.
  intros Hpr.
  destruct (regexNamedMatch (Regex r) name) as [matches|] eqn:Hm; cycle 1.
  { apply parseRule_Some in Hpr as (? & ? & ? & ? & ? & ? & _). congruence. }
  assert (Matches (Regex r name) = true) as Hmatch.
  { unfold regexNamedMatch in Hm. by destruct (Matches (Regex r name)). }
  destruct (parseRule_names _ _ _ _ _ _ _ _ Hpr) as [HR HO].
  destruct (parseRule_rest _ _ _ _ _ _ _ _ _ Hpr Hm)
    as (? & ? & ? & ? & _ & _ & _ & _ & _ & _ & HX & _).
  destruct (parseRule_fields _ _ _ _ _ _ _ _ _ Hpr Hm)
    as (? & ? & ? & ? & _ & _ & _ & _ & HS & _).
  repeat split; try done; rewrite HS; unfold bonusPoints;
    pose proof (bonus_range "series_name" matches);
    pose proof (bonus_range "series_num" matches);
    pose proof (bonus_range "season_num" matches);
    pose proof (bonus_range "air_date" matches);
    pose proof (bonus_range "release_group" matches); lia.
Qed.

Lemma candidate_of_rule np name k rk pk :
  Regexes np !! k = Some rk -> parseRule name k rk = Some pk ->
  pk ∈ parseRules name 0 (Regexes np).
Proof. intros Hk Hpk. apply elem_of_parseRules. by exists k, rk. Qed.

(** X14.  A successful [parseString] returns the input as [OriginalName]
    and the name of a rule of the catalog that matches the input as
    [RegexUsed]; the score lies between [-i] and [5 - i] for the index [i] of
    that rule, hence above minus the length of the catalog and at most 5. *)
Theorem parseString_result np name best :
  parseString np name = (best, None) ->
  OriginalName best = name
  /\ (exists i r,
        Regexes np !! i = Some r /\ RegexUsed best = Name r
        /\ Matches (Regex r name) = true
        /\ - Z.of_nat i <= Score best <= 5 - Z.of_nat i)
  /\ - Z.of_nat (length (Regexes np)) < Score best <= 5.
Proof.
  intros Hbest.
  destruct (parseString_cases zeroTime time_Date TranslateYMD zeroQuality sort_Sort
              sort_Sort_perm sort_Sort_sorted np name)
    as [[_ Hps]|(b & Hps & Hin & _)]; rewrite Hps in Hbest; [done|].
  injection Hbest as ->.
  apply elem_of_parseRules in Hin as (i & r & Hi & Hpr). cbn [Nat.add] in Hpr.
  destruct (candidate_origin _ _ _ _ Hpr) as (Hmatch & HO & HR & _ & HS).
  apply lookup_lt_Some in Hi as Hlt.
  split; [done|]. split; [by exists i, r|]. lia.
Qed.

(** X15.  A candidate that scores strictly more than the candidates of
    all other rules is the one [parseString] returns, whatever [sort.Sort]
    does with the rest. *)
Theorem parseString_unique_best np name i r pi :
  Regexes np !! i = Some r ->
  parseRule name i r = Some pi ->
  (forall k rk pk, k <> i -> Regexes np !! k = Some rk ->
     parseRule name k rk = Some pk -> Score pk < Score pi) ->
  parseString np name = (pi, None).
Proof.
  intros Hi Hpi Hbeats.
  pose proof (candidate_of_rule _ _ _ _ _ Hi Hpi) as Hcand.
  destruct (parseString_cases zeroTime time_Date TranslateYMD zeroQuality sort_Sort
              sort_Sort_perm sort_Sort_sorted np name)
    as [[Hnil _]|(best & Hps & Hin & Hmax)].
  { rewrite Hnil in Hcand. by apply elem_of_nil in Hcand. }
  rewrite Hps. f_equal.
  apply elem_of_parseRules in Hin as (k & rk & Hk & Hpk). cbn [Nat.add] in Hpk.
  destruct (decide (k = i)) as [->|Hki]; [congruence|].
  pose proof (Hbeats _ _ _ Hki Hk Hpk). pose proof (Hmax _ Hcand). lia.
Qed.

(** Whatever [parseString] returns has no extra info. *)
Lemma parseString_ExtraInfo np s : ExtraInfo (parseString np s).1 = "".
Proof.
  destruct (parseString_cases zeroTime time_Date TranslateYMD zeroQuality sort_Sort
              sort_Sort_perm sort_Sort_sorted np s)
    as [[_ Hps]|(best & Hps & Hin & _)]; rewrite Hps; [done|].
  apply elem_of_parseRules in Hin as (i & r & Hi & Hpr).
  by destruct (candidate_origin _ _ _ _ Hpr) as (_ & _ & _ & HX & _).
Qed.

(** X16.  Neither [Parse] nor [ParseFile] ever fills the extra info: the
    capture [extra_info] is read into the map and dropped by the rule
    loop. *)
Theorem ExtraInfo_never_filled np name :
  ExtraInfo (Parse np name) = ""
  /\ forall res, ParseFile np name = Some res -> ExtraInfo res = "".
Proof.
  split.
  - unfold Parse. pose proof (parseString_ExtraInfo np name) as HX.
    by destruct (parseString np name) as [res err].
  - intros res. rewrite ParseFile_eq. intros [= <-]. cbn [ExtraInfo].
    rewrite !parseString_ExtraInfo. reflexivity.
Qed.

(** X17.  [OriginalName], [RegexUsed] and [Score] of the result of
    [ParseFile] describe the parse of the whole path alone: the path and the
    name of a rule when the whole path gives a candidate, and empty, empty
    and 0 when it gives none, whatever the file name and the directory
    gave. *)
Theorem ParseFile_identity np name res :
  ParseFile np name = Some res ->
  ((parseString np name).2 = None
   /\ OriginalName res = name
   /\ exists i r, Regexes np !! i = Some r /\ RegexUsed res = Name r
        /\ parseRule name i r <> None)
  \/ ((parseString np name).2 <> None
      /\ (forall i r, Regexes np !! i = Some r -> parseRule name i r = None)
      /\ OriginalName res = "" /\ RegexUsed res = "" /\ Score res = 0).
Proof.
  rewrite ParseFile_eq. intros [= <-]. cbn [OriginalName RegexUsed Score].
  destruct (parseString_cases zeroTime time_Date TranslateYMD zeroQuality sort_Sort
              sort_Sort_perm sort_Sort_sorted np name)
    as [[Hnil Hps]|(best & Hps & Hin & _)]; rewrite Hps; cbn [fst snd].
  - right. split; [done|]. split; [|done]. by apply parseRules_nil.
  - left. split; [done|].
    apply elem_of_parseRules in Hin as (i & r & Hi & Hpr). cbn [Nat.add] in Hpr.
    destruct (candidate_origin _ _ _ _ Hpr) as (_ & HO & HR & _).
    split; [done|]. exists i, r. repeat split; try done. by rewrite Hpr.
Qed.

End ResultFacts.

(** ** [combineResults] on any field name *)

Section CombineFacts.

Context {Time Quality : Type}.
Variable isEmptyQuality : Quality -> bool.

Implicit Types (finalRes fileRes dirRes : ParseResult (Time := Time) (Quality := Quality)).

Local Abbreviation combineResults := (combineResults isEmptyQuality).
Local Abbreviation isEmptyValue := (isEmptyValue isEmptyQuality).

(** Whether a name is a field does not depend on the record. *)
Lemma FieldByName_valid (field : string) finalRes fileRes :
  FieldByName finalRes field = None -> FieldByName fileRes field = None.
Proof. unfold FieldByName. repeat (case_match; [done|]). done. Qed.




End CombineFacts.

(** ** Providers *)

(** X19.  [ProviderTypeFromString] and [ProviderType.String] are inverse
    to each other on the three provider types, and [String] panics on every
    other number. *)
Theorem ProviderType_round_trip (t : providers.ProviderType) (s : string) :
  (providers.String_ t = Some s <-> providers.ProviderTypeFromString s = (t, None))
  /\ (providers.String_ t = None <-> t < 0 \/ 3 <= t).
Proof.
  unfold providers.String_, providers.ProviderTypeFromString. split.
  - split.
    + destruct (t <? 0) eqn:Hneg; [done|]. apply Z.ltb_ge in Hneg.
      destruct (Z.to_nat t) as [|[|[|n]]] eqn:Ht; simpl; intros [= <-];
        [replace t with 0 by lia|replace t with 1 by lia|replace t with 2 by lia];
        reflexivity.
    + cbn [providers.fromStringLoop providers.types].
      destruct (String.eqb_spec "NZB" s) as [<-|]; [by intros [= <-]|].
      destruct (String.eqb_spec "TORRENT" s) as [<-|]; [by intros [= <-]|].
      destruct (String.eqb_spec "UNKNOWN" s) as [<-|]; [by intros [= <-]|].
      done.
  - destruct (t <? 0) eqn:Hneg.
    + apply Z.ltb_lt in Hneg. split; [auto|done].
    + apply Z.ltb_ge in Hneg. rewrite lookup_ge_None. simpl. lia.
Qed.

(** X20.  [ProviderTypeFromString] returns an error exactly on the strings
    that are none of [NZB], [TORRENT] and [UNKNOWN], compared byte by byte,
    and then the type [UNKNOWN]; the type alone does not tell the failure,
    since the string [UNKNOWN] gives it without error. *)
Theorem ProviderTypeFromString_error (s : string) :
  ((providers.ProviderTypeFromString s).2 <> None <-> s ∉ providers.types)
  /\ ((providers.ProviderTypeFromString s).2 <> None ->
      providers.ProviderTypeFromString s
      = (providers.UNKNOWN, Some ("Unknown Provider Type: " +:+ s)))
  /\ providers.ProviderTypeFromString "UNKNOWN" = (providers.UNKNOWN, None).
Proof.
  unfold providers.ProviderTypeFromString, providers.types.
  cbn [providers.fromStringLoop]. split; [|split; [|done]].
  - rewrite !not_elem_of_cons.
    destruct (String.eqb_spec "NZB" s) as [<-|H1];
      [simpl; split; [done|by intros [? _]]|].
    destruct (String.eqb_spec "TORRENT" s) as [<-|H2];
      [simpl; split; [done|by intros (_ & ? & _)]|].
    destruct (String.eqb_spec "UNKNOWN" s) as [<-|H3];
      [simpl; split; [done|by intros (_ & _ & ? & _)]|].
    simpl. split; [|done]. intros _. repeat split; try congruence. apply not_elem_of_nil.
  - destruct (String.eqb "NZB" s); [done|]. destruct (String.eqb "TORRENT" s); [done|].
    by destruct (String.eqb "UNKNOWN" s).
Qed.

Section RegistryFacts.

Context {Time : Type}.

Implicit Types (pr : gmap string (providers.Provider (Time := Time))).
Implicit Types (order : list (string * providers.Provider (Time := Time))).

(** The loop appends, provider by provider, what [okResults] gives. *)
Lemma SearchIn_bind order showname season epnum
    (acc : list (providers.ProviderResult (Time := Time))) :
  foldl (providers.searchStep showname season epnum) acc order
  = acc ++ (order ≫= providers.okResults showname season epnum).
Proof.
  revert acc. induction order as [|entry order IH]; intros acc; simpl.
  - by rewrite app_nil_r.
  - rewrite IH. unfold providers.searchStep, providers.okResults.
    destruct (providers.TvSearch entry.2 showname season epnum) as [rs [e|]]; simpl.
    + done.
    + by rewrite <- app_assoc.
Qed.

(** X21.  Whatever the order in which the map is visited, [Search] returns
    exactly the results of the providers of the registry that answer
    without error: a failing provider adds nothing and stops nothing, and
    two runs differ at most in the order of the results. *)
Theorem Search_results pr showname season epnum
    (res res' : list (providers.ProviderResult (Time := Time))) :
  providers.Search pr showname season epnum res ->
  (forall x, x ∈ res <->
     exists name p, pr !! name = Some p
       /\ (providers.TvSearch p showname season epnum).2 = None
       /\ x ∈ (providers.TvSearch p showname season epnum).1)
  /\ (providers.Search pr showname season epnum res' -> res ≡ₚ res').
Proof.
  intros (order & Hperm & ->). unfold providers.SearchIn.
  rewrite SearchIn_bind. cbn [app]. split.
  - intros x. rewrite Hperm, list_elem_of_bind. split.
    + intros ([name p] & Hx & Hin). apply elem_of_map_to_list in Hin.
      exists name, p. split; [done|]. unfold providers.okResults in Hx. simpl in Hx.
      destruct (providers.TvSearch p showname season epnum) as [rs [e|]]; simpl.
      * by apply elem_of_nil in Hx.
      * done.
    + intros (name & p & Hp & Herr & Hx). exists (name, p).
      split; [|by apply elem_of_map_to_list].
      unfold providers.okResults. simpl.
      destruct (providers.TvSearch p showname season epnum) as [rs [e|]]; simpl in *; done.
  - intros (order' & Hperm' & ->). unfold providers.SearchIn.
    rewrite SearchIn_bind. cbn [app]. by rewrite Hperm, Hperm'.
Qed.

End RegistryFacts.

(** ** The map of captures *)

(** X24.  [regexNamedMatch] fails exactly when the pattern does not match.
    The map it returns has a key exactly for the names of [knownMatches]
    whose group the pattern has and captured non-empty, with the capture as
    value: any other group of the pattern is left out. *)
Theorem regexNamedMatch_map (re : Regexp) (str : string) :
  (regexNamedMatch re str = None <-> Matches (re str) = false)
  /\ forall matches, regexNamedMatch re str = Some matches ->
       (forall k v, matches !! k = Some v <->
          k ∈ knownMatches /\ NamedString (re str) k = Some v /\ v <> "")
       /\ forall k, k ∉ knownMatches -> matches !! k = None.
Proof.
  split.
  - unfold regexNamedMatch. by destruct (Matches (re str)).
  - intros matches Hm. split; [intros k v; by apply regexNamedMatch_lookup|].
    intros k Hk. destruct (matches !! k) as [v|] eqn:Hv; [|done].
    apply (regexNamedMatch_lookup _ _ _ _ _ Hm) in Hv as [Hin _]. done.
Qed.

(** ** The further facts on concrete inputs *)

Lemma CleanSeriesName_forbidden_witness :
  strings.contains "/" (backslash +:+ "/*:" +:+ quote +:+ "<>|?") = true
  /\ CleanSeriesName "AC/DC: Live?" = "AC-DC Live"
  /\ strings.contains "/" (CleanSeriesName "AC/DC: Live?") = false.
Proof.
  split; [reflexivity|]. split; [reflexivity|].
  apply (CleanSeriesName_forbidden "AC/DC: Live?" "/"). reflexivity.
Defined.

Lemma SanitizeSceneName_removed_witness :
  strings.contains " " ",:()!?'&/ " = true
  /\ SanitizeSceneName "Law & Order (UK)" = "Law.and.Order.UK"
  /\ strings.contains " " (SanitizeSceneName "Law & Order (UK)") = false.
Proof.
  split; [reflexivity|]. split; [reflexivity|].
  apply (SanitizeSceneName_removed "Law & Order (UK)" " "). reflexivity.
Defined.

Lemma FullSanitizeSceneName_normal_witness :
  isASCII "  Show - Part 2.  " = true
  /\ FullSanitizeSceneName "  Show - Part 2.  " = "show  part 2"
  /\ strings.contains "." (FullSanitizeSceneName "  Show - Part 2.  ") = false
  /\ strings.TrimSpace (FullSanitizeSceneName "  Show - Part 2.  ")
     = FullSanitizeSceneName "  Show - Part 2.  ".
Proof.
  split; [reflexivity|]. split; [reflexivity|].
  destruct (FullSanitizeSceneName_normal "  Show - Part 2.  " eq_refl) as [Hc Ht].
  split; [|exact Ht]. apply Hc. left. reflexivity.
Defined.

Lemma IsMediaExtension_insensitive_witness :
  isASCII "MkV" = true /\ isASCII "mkv" = true
  /\ strings.ToLower "MkV" = strings.ToLower "mkv"
  /\ IsMediaExtension "..MkV" = IsMediaExtension "mkv"
  /\ IsMediaExtension "mkv" = true.
Proof.
  do 3 (split; [reflexivity|]). split; [|reflexivity].
  apply (IsMediaExtension_insensitive "MkV" "mkv" 2 0); reflexivity.
Defined.

Lemma IsMediaFile_true_witness :
  isASCII "show.s01e01.MKV" = true
  /\ IsMediaFile "show.s01e01.MKV" = true
  /\ stripExtension "show.s01e01.MKV" = "show.s01e01"
  /\ exists ext,
       "show.s01e01.MKV" = stripExtension "show.s01e01.MKV" +:+ String "." ext
       /\ In (strings.ToLower ext) mediaExtensions.
Proof.
  do 3 (split; [reflexivity|]).
  destruct (IsMediaFile_true "show.s01e01.MKV" eq_refl eq_refl)
    as [(ext & Hname & Hin & _) _].
  by exists ext.
Defined.

Lemma IsMediaFile_sample_witness :
  isASCII "movie-Sample2.mkv" = true
  /\ boundaryAfter true "movie-" = true
  /\ strings.ToLower "Sample" = "sample"
  /\ allDigits "2" = true
  /\ isAlnum "." = false
  /\ IsMediaFile "movie-Sample2.mkv" = false.
Proof.
  do 5 (split; [reflexivity|]).
  apply (IsMediaFile_sample "movie-" "Sample" "2" "." "mkv"); reflexivity.
Defined.

Lemma IsMediaFile_extras_witness :
  isASCII "Show.Extras.mkv" = true
  /\ stripExtension "Show.Extras.mkv" = "Show." +:+ "Extras"
  /\ strings.ToLower "Extras" = "extras"
  /\ IsMediaFile "Show.Extras.mkv" = false.
Proof.
  do 3 (split; [reflexivity|]).
  apply (IsMediaFile_extras "Show.Extras.mkv" "Show." "Extras");
    [reflexivity|reflexivity|by right].
Defined.

Lemma parseRule_descriptive_witness :
  exists pr matches,
    Sample.parseRule "Show.S01E02-GRP" 2 Sample.scored = Some pr
    /\ regexNamedMatch (Regex Sample.scored) "Show.S01E02-GRP" = Some matches
    /\ SeriesName pr = "Show" /\ ReleaseGroup pr = "GRP" /\ ExtraInfo pr = "".
Proof.
  eexists _, _. split; [vm_compute; reflexivity|]. split; [reflexivity|].
  destruct (parseRule_descriptive Sample.zeroTime Sample.time_Date Sample.TranslateYMD
              Sample.UNKNOWN "Show.S01E02-GRP" 2 Sample.scored _ _
              ltac:(vm_compute; reflexivity) eq_refl) as (HN & HR & HX & _).
  split; [exact HN|]. split; [exact HR|exact HX].
Defined.

Lemma parseRule_absolute_witness :
  exists pr matches,
    regexNamedMatch
      (Regex (Sample.rule "anime" "Show - 000" [("ep_ab_num", "000")])) "Show - 000"
    = Some matches
    /\ Sample.parseRule "Show - 000" 0
         (Sample.rule "anime" "Show - 000" [("ep_ab_num", "000")]) = Some pr
    /\ matches !! "ep_ab_num" = Some "000"
    /\ AbsoluteEpisodeNumbers pr = [0].
Proof.
  eexists _, _. split; [reflexivity|]. split; [vm_compute; reflexivity|].
  split; [by vm_compute|].
  exact (proj2 (proj2 (parseRule_absolute Sample.zeroTime Sample.time_Date
                         Sample.TranslateYMD Sample.UNKNOWN "Show - 000" 0
                         (Sample.rule "anime" "Show - 000" [("ep_ab_num", "000")])
                         _ eq_refl) _ ltac:(vm_compute; reflexivity))).
Defined.

Lemma parseRule_episodes_witness :
  exists pr matches,
    Sample.parseRule "Show.E05-06" 0
      (Sample.rule "multi" "Show.E05-06" [("ep_num", "05"); ("extra_ep_num", "06")])
    = Some pr
    /\ regexNamedMatch
         (Regex (Sample.rule "multi" "Show.E05-06"
                   [("ep_num", "05"); ("extra_ep_num", "06")])) "Show.E05-06"
       = Some matches
    /\ strconv.ParseInt "06" = (6, None)
    /\ EpisodeNumbers pr = [5; 6].
Proof.
  eexists _, _. split; [vm_compute; reflexivity|]. split; [reflexivity|].
  split; [reflexivity|].
  exact (parseRule_episodes Sample.zeroTime Sample.time_Date Sample.TranslateYMD
           Sample.UNKNOWN "Show.E05-06" 0
           (Sample.rule "multi" "Show.E05-06" [("ep_num", "05"); ("extra_ep_num", "06")])
           _ _ ltac:(vm_compute; reflexivity) eq_refl eq_refl).
Defined.

Lemma parseRule_conversion_failure_witness :
  exists matches,
    regexNamedMatch
      (Regex (Sample.rule "roman" "Show.SIVE02" [("season_num", "IV"); ("ep_num", "02")]))
      "Show.SIVE02" = Some matches
    /\ matches !! "season_num" = Some "IV"
    /\ strconv.ParseInt (strings.TrimLeft "IV" "0") = (0, Some strconv.ErrSyntax)
    /\ Sample.parseRule "Show.SIVE02" 0
         (Sample.rule "roman" "Show.SIVE02" [("season_num", "IV"); ("ep_num", "02")])
       = None.
Proof.
  eexists. split; [reflexivity|]. split; [by vm_compute|]. split; [reflexivity|].
  refine (proj1 (parseRule_conversion_failure Sample.zeroTime Sample.time_Date
                   Sample.TranslateYMD Sample.UNKNOWN "Show.SIVE02" 0
                   (Sample.rule "roman" "Show.SIVE02"
                      [("season_num", "IV"); ("ep_num", "02")]) _ eq_refl) "IV" _ _).
  - left. by vm_compute.
  - by vm_compute.
Defined.

Lemma FirstEpisode_candidate_witness :
  exists pr matches,
    Sample.parseRule "Show - 01v2" 0 Sample.versioned = Some pr
    /\ regexNamedMatch (Regex Sample.versioned) "Show - 01v2" = Some matches
    /\ matches !! "ep_num" = None /\ matches !! "ep_ab_num" = Some "01"
    /\ FirstEpisode pr = 1.
Proof.
  eexists _, _. split; [vm_compute; reflexivity|]. split; [reflexivity|].
  split; [by vm_compute|]. split; [by vm_compute|].
  exact (FirstEpisode_candidate Sample.zeroTime Sample.time_Date Sample.TranslateYMD
           Sample.UNKNOWN "Show - 01v2" 0 Sample.versioned _ _
           ltac:(vm_compute; reflexivity) eq_refl).
Defined.

Lemma parseString_result_witness :
  exists best,
    Sample.parseString Sample.catalog "Show.2015.01.02" = (best, None)
    /\ OriginalName best = "Show.2015.01.02"
    /\ RegexUsed best = "dated"
    /\ - 3 < Score best <= 5.
Proof.
  eexists. split; [vm_compute; reflexivity|].
  destruct (parseString_result Sample.zeroTime Sample.time_Date Sample.TranslateYMD
              Sample.UNKNOWN Sample.sort_Sort
              (@Sample_sort_Sort_perm _) (@Sample_sort_Sort_sorted _)
              Sample.catalog "Show.2015.01.02" _ ltac:(vm_compute; reflexivity))
    as (HO & _ & HS).
  split; [exact HO|]. split; [reflexivity|exact HS].
Defined.

Lemma parseString_unique_best_witness :
  Sample.parseString Sample.twins "Show.S01"
  = (set_Score 1 (set_SeriesName "Show"
       (initialResult Sample.zeroTime Sample.UNKNOWN "Show.S01" 0
          (Sample.rule "first" "Show.S01" [("series_name", "Show")]))), None).
Proof.
  apply (parseString_unique_best Sample.zeroTime Sample.time_Date Sample.TranslateYMD
           Sample.UNKNOWN Sample.sort_Sort
           (@Sample_sort_Sort_perm _) (@Sample_sort_Sort_sorted _)
           Sample.twins "Show.S01" 0
           (Sample.rule "first" "Show.S01" [("series_name", "Show")])).
  - reflexivity.
  - vm_compute; reflexivity.
  - intros [|[|k]] rk pk Hk Hrk Hpk; [done| |done].
    injection Hrk as <-. vm_compute in Hpk. injection Hpk as <-. reflexivity.
Defined.

Lemma ExtraInfo_never_filled_witness :
  NamedString (Regex (Sample.rule "bare" "episode" [("extra_info", "episode")]) "episode")
    "extra_info" = Some "episode"
  /\ RegexUsed (Sample.Parse Sample.catalog "episode") = "bare"
  /\ ExtraInfo (Sample.Parse Sample.catalog "episode") = "".
Proof.
  split; [reflexivity|]. split; [reflexivity|].
  exact (proj1 (ExtraInfo_never_filled Sample.zeroTime Sample.time_Date
                  Sample.TranslateYMD Sample.UNKNOWN Sample.QualityFromName
                  Sample.isEmptyQuality Sample.sort_Sort
                  (@Sample_sort_Sort_perm _) (@Sample_sort_Sort_sorted _)
                  Sample.catalog "episode")).
Defined.

Lemma ParseFile_identity_witness :
  exists res,
    Sample.ParseFile Sample.catalog "Show.2015.01.02/episode.mkv" = Some res
    /\ SeriesName res = "Show"
    /\ (Sample.parseString Sample.catalog "Show.2015.01.02/episode.mkv").2 <> None
    /\ OriginalName res = "" /\ RegexUsed res = "" /\ Score res = 0.
Proof.
  eexists. split; [vm_compute; reflexivity|]. split; [reflexivity|].
  destruct (ParseFile_identity Sample.zeroTime Sample.time_Date Sample.TranslateYMD
              Sample.UNKNOWN Sample.QualityFromName Sample.isEmptyQuality
              Sample.sort_Sort (@Sample_sort_Sort_perm _) (@Sample_sort_Sort_sorted _)
              Sample.catalog "Show.2015.01.02/episode.mkv" _
              ltac:(vm_compute; reflexivity))
    as [(Hok & _)|(Herr & _ & HO & HR & HS)].
  - vm_compute in Hok. discriminate Hok.
  - split; [exact Herr|]. split; [exact HO|]. split; [exact HR|exact HS].
Defined.


Lemma Search_results_witness :
  providers.Search SampleProviders.registry "Show" 1 2 [SampleProviders.result "Show"]
  /\ forall x, x ∈ [SampleProviders.result "Show"] <->
       exists name p, SampleProviders.registry !! name = Some p
         /\ (providers.TvSearch p "Show" 1 2).2 = None
         /\ x ∈ (providers.TvSearch p "Show" 1 2).1.
Proof.
  assert (providers.Search SampleProviders.registry "Show" 1 2
            [SampleProviders.result "Show"]) as Hsearch.
  { exists (map_to_list SampleProviders.registry). split; [reflexivity|].
    vm_compute. reflexivity. }
  split; [exact Hsearch|].
  exact (proj1 (Search_results SampleProviders.registry "Show" 1 2
                  [SampleProviders.result "Show"] [] Hsearch)).
Defined.

Lemma ParseFile_precedence_witness :
  exists res,
    Sample.ParseFile Sample.catalog "Show.2015.01.02/episode.mkv" = Some res
    /\ SeriesName (Sample.parseString Sample.catalog "Show.2015.01.02").1 = "Show"
    /\ SeriesName res = "Show".
Proof.
  eexists. split; [vm_compute; reflexivity|]. split; [reflexivity|].
  destruct (ParseFile_precedence Sample.zeroTime Sample.time_Date Sample.TranslateYMD
              Sample.UNKNOWN Sample.QualityFromName Sample.isEmptyQuality
              Sample.sort_Sort Sample.catalog "Show.2015.01.02/episode.mkv" _
              ltac:(vm_compute; reflexivity)) as (_ & _ & _ & HN & _).
  rewrite HN. reflexivity.
Defined.

Lemma parseRule_no_zero_witness :
  exists pr matches,
    Sample.parseRule "Show.S01E02-GRP" 2 Sample.scored = Some pr
    /\ regexNamedMatch (Regex Sample.scored) "Show.S01E02-GRP" = Some matches
    /\ matches !! "season_num" = Some "01" /\ allDigits "01" = true
    /\ 1 <= SeasonNumber pr.
Proof.
  eexists _, _. split; [vm_compute; reflexivity|]. split; [reflexivity|].
  split; [by vm_compute|]. split; [reflexivity|].
  refine (proj1 (parseRule_no_zero Sample.zeroTime Sample.time_Date Sample.TranslateYMD
                   Sample.UNKNOWN "Show.S01E02-GRP" 2 Sample.scored _ _
                   ltac:(vm_compute; reflexivity) eq_refl) "01" _ eq_refl).
  by vm_compute.
Defined.

Lemma regexNamedMatch_map_witness :
  exists matches,
    regexNamedMatch (Regex Sample.versioned) "Show - 01v2" = Some matches
    /\ NamedString (Regex Sample.versioned "Show - 01v2") "version" = Some "v2"
    /\ matches !! "version" = None
    /\ matches !! "series_name" = Some "Show".
Proof.
  eexists. split; [reflexivity|]. split; [reflexivity|].
  destruct (proj2 (regexNamedMatch_map (Regex Sample.versioned) "Show - 01v2") _ eq_refl)
    as [Hkeys Hout].
  split.
  - apply Hout. unfold knownMatches. rewrite !not_elem_of_cons.
    repeat (split; [discriminate|]). apply not_elem_of_nil.
  - apply Hkeys. split; [|by split].
    unfold knownMatches. left.
Defined.
